(** * kernelci.runtime.lava: the LAVA job descriptor builder

    A shallow embedding of [kernelci/runtime/lava/__init__.py] and the
    properties of its naming, priority and callback helpers.

    Python data is modelled as follows.
    - [str] is [string]; a character is one [ascii] code.
    - A dynamically typed value is a [value]: [None], an [int] (unbounded,
      [Z]) or a [str].  These are the kinds of values the YAML
      configuration yields for the keys used here.
    - A [float] is an IEEE 754 binary64 number, [spec_float] with
      precision 53 and maximal exponent 1024, with the operations of
      [SpecFloat].
    - A [dict] with string keys is a [gmap string _].
    - A raised exception is the [Raise] case of [result].
    - A method that updates a dictionary in place returns the dictionary
      as the call leaves it, also when the call ends by an exception.
    - What [generate] calls outside this module (the plan
      configuration, the base class, jinja2) is a parameter of its
      definition; the theorems about [generate] hold for every choice of
      these collaborators. *)

From Stdlib Require Import ZArith String Ascii List Bool Lia.
From Stdlib Require Import Floats.SpecFloat.
From stdpp Require Import base option list list_numbers strings gmap.

Local Open Scope string_scope.
Local Open Scope Z_scope.

(** ** Exceptions and results *)

Inductive exn : Type :=
| KeyError (key : string)
| TypeError
| AttributeError
| ValueError
| OverflowError
| ZeroDivisionError.

Inductive result (A : Type) : Type :=
| Ok (a : A)
| Raise (e : exn).

Arguments Ok {A} a.
Arguments Raise {A} e.

(** Sequencing: an exception raised by the first computation ends the
    whole computation.  With these instances [x ← r; k] reads as
    "evaluate r, name its value x, go on with k". *)
#[global] Instance result_ret : MRet result := fun A a => Ok a.

#[global] Instance result_bind : MBind result := fun A B k r =>
  match r with
  | Ok a => k a
  | Raise e => Raise e
  end.

(** ** Values *)

Inductive value : Type :=
| VNone
| VInt (z : Z)
| VStr (s : string).

(** Python truth value testing: [None], [0] and the empty string are false. *)
Definition truthy (v : value) : bool :=
  match v with
  | VNone => false
  | VInt z => negb (z =? 0)
  | VStr s => negb (String.eqb s "")
  end.

(** [==] on values. *)
Definition value_eqb (v w : value) : bool :=
  match v, w with
  | VNone, VNone => true
  | VInt a, VInt b => a =? b
  | VStr s, VStr t => String.eqb s t
  | _, _ => false
  end.

Definition is_none (v : value) : bool :=
  match v with VNone => true | _ => false end.

Abbreviation dict := (gmap string value).

(** [d[key]] *)
Definition getitem (d : dict) (key : string) : result value :=
  match d !! key with
  | Some v => Ok v
  | None => Raise (KeyError key)
  end.

(** [d.get(key)] and [d.get(key, default)] *)
Definition get (d : dict) (key : string) : value :=
  match d !! key with
  | Some v => v
  | None => VNone
  end.

Definition get_default (d : dict) (key : string) (dflt : value) : value :=
  match d !! key with
  | Some v => v
  | None => dflt
  end.

(** ** Binary64 floating point, as far as Python's [int / int],
    [float + int] and [int(float)] need it *)

Module Float64.

Definition prec : Z := 53.
Definition emax : Z := 1024.

Abbreviation float := spec_float.

Definition is_infinite (x : float) : bool :=
  match x with S754_infinity _ => true | _ => false end.

(** An integer as an unrounded binary number. *)
Definition exact (z : Z) : float :=
  match z with
  | Z0 => S754_zero false
  | Zpos m => S754_finite false m 0
  | Zneg m => S754_finite true m 0
  end.

(** [float(z)]: the nearest binary64 number, ties to even;
    [OverflowError] beyond the range of the format. *)
Definition of_int (z : Z) : result float :=
  let x := binary_normalize prec emax z 0 false in
  if is_infinite x then Raise OverflowError else Ok x.

(** [a / b] on two [int]s: the correctly rounded quotient. *)
Definition int_truediv (a b : Z) : result float :=
  if b =? 0 then Raise ZeroDivisionError
  else
    let x := SFdiv prec emax (exact a) (exact b) in
    if is_infinite x then Raise OverflowError else Ok x.

(** [x + k] for a [float] x and an [int] k. *)
Definition add_int (x : float) (k : Z) : result float :=
  y ← of_int k;
  Ok (SFadd prec emax x y).

(** [int(x)]: truncation toward zero. *)
Definition to_int (x : float) : result Z :=
  match x with
  | S754_zero _ => Ok 0
  | S754_finite s m e => Ok (cond_Zopp s (Z.shiftl (Zpos m) e))
  | S754_infinity _ => Raise OverflowError
  | S754_nan => Raise ValueError
  end.

End Float64.

(** ** Operators on values *)

Fixpoint str_repeat (s : string) (n : nat) : string :=
  match n with
  | O => ""
  | S n' => s +:+ str_repeat s n'
  end.

(** [v * w]: the product of two [int]s, or a [str] repeated. *)
Definition py_mul (v w : value) : result value :=
  match v, w with
  | VInt a, VInt b => Ok (VInt (a * b))
  | VStr s, VInt n | VInt n, VStr s => Ok (VStr (str_repeat s (Z.to_nat n)))
  | _, _ => Raise TypeError
  end.

(** [v - w] *)
Definition py_sub (v w : value) : result value :=
  match v, w with
  | VInt a, VInt b => Ok (VInt (a - b))
  | _, _ => Raise TypeError
  end.

(** [v / w]: true division, defined on numbers only. *)
Definition py_truediv (v w : value) : result Float64.float :=
  match v, w with
  | VInt a, VInt b => Float64.int_truediv a b
  | _, _ => Raise TypeError
  end.

(** [x + w] for a [float] x. *)
Definition py_add_float (x : Float64.float) (w : value)
  : result Float64.float :=
  match w with
  | VInt k => Float64.add_int x k
  | VStr _ | VNone => Raise TypeError
  end.

(** [int(x)] for a [float] x. *)
Definition py_int (x : Float64.float) : result value :=
  r ← Float64.to_int x;
  Ok (VInt r).

(** ** Configuration objects *)

(** The attributes of [self.config] read by [_get_priority]. *)
Record runtime_config : Type := {
  priority : value;
  priority_min : value;
  priority_max : value;
}.

(** [plan_config.params] *)
Record plan_config : Type := {
  params : dict;
}.

(** ** [LavaRuntime._get_priority] *)

Definition _get_priority (config : runtime_config) (plan : plan_config)
  : result value :=
  let priority0 := get_default (params plan) "priority" (VInt 20) in
  if truthy (priority config) then
    a ← py_mul priority0 (priority config);
    x ← py_truediv a (VInt 100);
    py_int x
  else if negb (is_none (priority_max config))
          && negb (is_none (priority_min config)) then
    prio_range ← py_sub (priority_max config) (priority_min config);
    let prio_min := priority_min config in
    a ← py_mul priority0 prio_range;
    x ← py_truediv a (VInt 100);
    y ← py_add_float x prio_min;
    py_int y
  else
    Ok priority0.

(** ** String methods *)

Definition char_in (c : ascii) (chars : string) : bool :=
  existsb (Ascii.eqb c) (list_ascii_of_string chars).

(** [s.startswith(p)] *)
Definition startswith (s p : string) : bool := String.prefix p s.

(** [sep.join(parts)] *)
Definition join (sep : string) (parts : list string) : string :=
  String.concat sep parts.

(** [s.replace(old, new)] where old and new are single characters. *)
Fixpoint replace (old new : ascii) (s : string) : string :=
  match s with
  | EmptyString => EmptyString
  | String c s' =>
      String (if Ascii.eqb c old then new else c) (replace old new s')
  end.

(** [s.lstrip(chars)], [s.rstrip(chars)] and [s.strip(chars)] *)
Fixpoint lstrip (chars : string) (s : string) : string :=
  match s with
  | EmptyString => EmptyString
  | String c s' => if char_in c chars then lstrip chars s' else s
  end.

Fixpoint rstrip (chars : string) (s : string) : string :=
  match s with
  | EmptyString => EmptyString
  | String c s' =>
      match rstrip chars s' with
      | EmptyString =>
          if char_in c chars then EmptyString else String c EmptyString
      | t => String c t
      end
  end.

Definition strip (chars : string) (s : string) : string :=
  rstrip chars (lstrip chars s).

(** [sub in s] *)
Fixpoint contains (sub s : string) : bool :=
  String.prefix sub s ||
  match s with
  | EmptyString => false
  | String _ s' => contains sub s'
  end.

(** [s.endswith(suffix)] *)
Fixpoint endswith (s suffix : string) : bool :=
  String.eqb s suffix ||
  match s with
  | EmptyString => false
  | String _ s' => endswith s' suffix
  end.

(** ** Regular expressions: the fragment of Python's [re] that
    [CROS_CONFIG_RE] is written in *)

Module Re.

(** A member of a character set [[...]]. *)
Inductive set_item : Type :=
| SChar (c : ascii)
| SRange (lo hi : ascii).

(** What matches exactly one character. *)
Inductive atom : Type :=
| Lit (c : ascii)
| Any
| OneOf (items : list set_item).

Inductive regex : Type :=
| Eps
| Chr (a : atom)
| Plus (a : atom)
| Opt (r : regex)
| Group (n : nat) (r : regex)
| Cat (r1 r2 : regex).

Definition newline : ascii := ascii_of_nat 10.

Definition item_matches (c : ascii) (i : set_item) : bool :=
  match i with
  | SChar c' => Ascii.eqb c c'
  | SRange lo hi =>
      ((N_of_ascii lo <=? N_of_ascii c) && (N_of_ascii c <=? N_of_ascii hi))%N
  end.

Definition atom_matches (a : atom) (c : ascii) : bool :=
  match a with
  | Lit c' => Ascii.eqb c c'
  | Any => negb (Ascii.eqb c newline)
  | OneOf items => existsb (item_matches c) items
  end.

(** *** Compiling a pattern *)

Inductive set_state : Type :=
| SStart
| SHave (c : ascii)
| SDash (c : ascii).

Inductive mode : Type :=
| Normal
| Escape
| InSet (items : list set_item) (st : set_state).

(** An open sequence: the group it belongs to ([None] at top level) and
    its items so far, last first. *)
Definition frame : Type := (option nat * list regex)%type.

Record pstate : Type := {
  ps_mode : mode;
  ps_cur : frame;
  ps_stack : list frame;
  ps_groups : nat;
}.

Definition seq_of (items : list regex) : regex :=
  fold_right Cat Eps items.

(** The literal text [s], then [k]. *)
Fixpoint lits (s : string) (k : regex) : regex :=
  match s with
  | EmptyString => k
  | String c s' => Cat (Chr (Lit c)) (lits s' k)
  end.

Definition push (r : regex) (st : pstate) : option pstate :=
  let '(g, items) := ps_cur st in
  Some {| ps_mode := Normal; ps_cur := (g, r :: items);
          ps_stack := ps_stack st; ps_groups := ps_groups st |}.

Definition is_alnum (c : ascii) : bool :=
  item_matches c (SRange "a" "z") || item_matches c (SRange "A" "Z")
  || item_matches c (SRange "0" "9").

Definition step_normal (c : ascii) (st : pstate) : option pstate :=
  let '(g, items) := ps_cur st in
  if Ascii.eqb c "(" then
    Some {| ps_mode := Normal; ps_cur := (Some (S (ps_groups st)), []);
            ps_stack := ps_cur st :: ps_stack st;
            ps_groups := S (ps_groups st) |}
  else if Ascii.eqb c ")" then
    match g, ps_stack st with
    | Some n, (g', items') :: stack' =>
        Some {| ps_mode := Normal;
                ps_cur := (g', Group n (seq_of (rev items)) :: items');
                ps_stack := stack'; ps_groups := ps_groups st |}
    | _, _ => None
    end
  else if Ascii.eqb c "[" then
    Some {| ps_mode := InSet [] SStart; ps_cur := ps_cur st;
            ps_stack := ps_stack st; ps_groups := ps_groups st |}
  else if Ascii.eqb c "\" then
    Some {| ps_mode := Escape; ps_cur := ps_cur st;
            ps_stack := ps_stack st; ps_groups := ps_groups st |}
  else if Ascii.eqb c "." then push (Chr Any) st
  else if Ascii.eqb c "+" then
    match items with
    | Chr a :: items' =>
        Some {| ps_mode := Normal; ps_cur := (g, Plus a :: items');
                ps_stack := ps_stack st; ps_groups := ps_groups st |}
    | _ => None
    end
  else if Ascii.eqb c "?" then
    match items with
    | (Chr _ | Group _ _) as r :: items' =>
        Some {| ps_mode := Normal; ps_cur := (g, Opt r :: items');
                ps_stack := ps_stack st; ps_groups := ps_groups st |}
    | _ => None
    end
  else if char_in c "*|{}^$]" then None
  else push (Chr (Lit c)) st.

Definition step_set (c : ascii) (items : list set_item) (s : set_state)
    (st : pstate) : option pstate :=
  let continue items' s' :=
    Some {| ps_mode := InSet items' s'; ps_cur := ps_cur st;
            ps_stack := ps_stack st; ps_groups := ps_groups st |} in
  let close items' :=
    match items' with
    | [] => None
    | _ => push (Chr (OneOf (rev items'))) st
    end in
  if char_in c "\[^" then None
  else
    match s with
    | SStart =>
        if Ascii.eqb c "]" then close items else continue items (SHave c)
    | SHave c1 =>
        if Ascii.eqb c "-" then continue items (SDash c1)
        else if Ascii.eqb c "]" then close (SChar c1 :: items)
        else continue (SChar c1 :: items) (SHave c)
    | SDash c1 =>
        if Ascii.eqb c "]" then close (SChar "-" :: SChar c1 :: items)
        else if (N_of_ascii c1 <=? N_of_ascii c)%N
             then continue (SRange c1 c :: items) SStart
             else None
    end.

Definition step (c : ascii) (st : pstate) : option pstate :=
  match ps_mode st with
  | Normal => step_normal c st
  | Escape => if is_alnum c then None else push (Chr (Lit c)) st
  | InSet items s => step_set c items s st
  end.

Fixpoint steps (pattern : string) (st : pstate) : option pstate :=
  match pattern with
  | EmptyString => Some st
  | String c pattern' =>
      match step c st with
      | Some st' => steps pattern' st'
      | None => None
      end
  end.

(** [re.compile(pattern)]; [None] for a pattern outside the fragment.
    The second component is the number of groups. *)
Definition compile (pattern : string) : option (regex * nat) :=
  match steps pattern {| ps_mode := Normal; ps_cur := (None, []);
                         ps_stack := []; ps_groups := 0 |} with
  | Some {| ps_mode := Normal; ps_cur := (None, items); ps_stack := [];
            ps_groups := n |} => Some (seq_of (rev items), n)
  | _ => None
  end.

(** *** Matching *)

Definition captures : Type := list (nat * string).

(** One way to match at the start of a string: the text consumed, the
    groups set on the way (last set first) and the text left over. *)
Definition thread : Type := (string * captures * string)%type.

(** The ways to match [a+], longest first. *)
Fixpoint run_plus (a : atom) (s : string) : list (string * string) :=
  match s with
  | EmptyString => []
  | String c s' =>
      if atom_matches a c
      then map (fun wr => (String c (fst wr), snd wr)) (run_plus a s')
           ++ [(String c EmptyString, s')]
      else []
  end.

(** The ways to match [r] at the start of [s], in the order in which a
    backtracking matcher tries them. *)
Fixpoint run (r : regex) (s : string) : list thread :=
  match r with
  | Eps => [(EmptyString, [], s)]
  | Chr a =>
      match s with
      | String c s' =>
          if atom_matches a c then [(String c EmptyString, [], s')] else []
      | EmptyString => []
      end
  | Plus a => map (fun wr => (fst wr, [], snd wr)) (run_plus a s)
  | Opt r' => run r' s ++ [(EmptyString, [], s)]
  | Group n r' =>
      map (fun t : thread =>
             let '(w, caps, rest) := t in (w, (n, w) :: caps, rest))
          (run r' s)
  | Cat r1 r2 =>
      flat_map (fun t1 : thread =>
                  let '(w1, caps1, rest1) := t1 in
                  map (fun t2 : thread =>
                         let '(w2, caps2, rest2) := t2 in
                         (w1 +:+ w2, (caps2 ++ caps1)%list, rest2))
                      (run r2 rest1))
               (run r1 s)
  end.

Fixpoint assoc (n : nat) (caps : captures) : option string :=
  match caps with
  | [] => None
  | (k, w) :: caps' => if Nat.eqb k n then Some w else assoc n caps'
  end.

(** A compiled pattern and a match object. *)
Record pattern : Type := { p_regex : regex; p_groups : nat }.
Record match_object : Type := { m_groups : nat; m_captures : captures }.

(** [p.match(s)]: the first way to match at the start of [s], or [None]. *)
Definition match_ (p : pattern) (s : string) : option match_object :=
  match run (p_regex p) s with
  | (_, caps, _) :: _ => Some {| m_groups := p_groups p; m_captures := caps |}
  | [] => None
  end.

(** [m.groups()]: the text of each group, [None] for a group that took
    no part in the match. *)
Definition groups (m : match_object) : list (option string) :=
  map (fun n => assoc n (m_captures m)) (seq 1 (m_groups m)).

(** *** The language of a regular expression *)

Inductive plus_lang (a : atom) : string -> Prop :=
| plus_one c : atom_matches a c = true -> plus_lang a (String c EmptyString)
| plus_more c w :
    atom_matches a c = true -> plus_lang a w -> plus_lang a (String c w).


End Re.

(** ** Module constants *)

Definition CROS_CONFIG_RE_source : string :=
  "cros://chromeos-([0-9.]+)/([a-z0-9_]+)/([a-z0-9-._]+).flavour.config(\+[a-z0-9-+]+)?".

Definition CROS_CONFIG_RE : Re.pattern :=
  Eval vm_compute in
    match Re.compile CROS_CONFIG_RE_source with
    | Some (r, n) => {| Re.p_regex := r; Re.p_groups := n |}
    | None => {| Re.p_regex := Re.Eps; Re.p_groups := 0 |}
    end.

Definition CROS_FLAVOURS : gmap string string :=
  list_to_map [
    ("chromeos-amd-stoneyridge", "ston");
    ("chromeos-intel-denverton", "denv");
    ("chromeos-intel-pineview", "pine");
    ("chromiumos-arm", "arm");
    ("chromiumos-arm64", "arm64");
    ("chromiumos-mediatek", "mtk");
    ("chromiumos-qualcomm", "qcom");
    ("chromiumos-rockchip", "rk32");
    ("chromiumos-rockchip64", "rk64");
    ("chromiumos-x86_64", "x86")
  ].

Definition CROS_DEVICE_TYPES : gmap string string :=
  list_to_map [
    ("hp-x360-12b-ca0500na-n4000-octopus_chromeos", "octopus-n4000");
    ("hp-x360-12b-ca0010nr-n4020-octopus_chromeos", "octopus-n4020");
    ("qemu_x86_64-uefi-chromeos", "qemu-x86")
  ].

(** ** Helpers for values that must be strings *)

(** A [str] is required: [None] where text is expected is a [TypeError]. *)
Definition expect_str (o : option string) : result string :=
  match o with
  | Some s => Ok s
  | None => Raise TypeError
  end.

Definition value_str (v : value) : result string :=
  match v with
  | VStr s => Ok s
  | VInt _ | VNone => Raise TypeError
  end.

Fixpoint values_str (vs : list value) : result (list string) :=
  match vs with
  | [] => Ok []
  | v :: vs' =>
      s ← value_str v;
      ss ← values_str vs';
      Ok (s :: ss)
  end.

(** [sep.join(items)] on values: every item has to be a [str]. *)
Definition py_join (sep : string) (items : list value) : result string :=
  parts ← values_str items;
  Ok (join sep parts).

(** [table.get(key) or key] *)
Definition get_or_key (table : gmap string string) (key : string) : string :=
  match table !! key with
  | Some v => if String.eqb v "" then key else v
  | None => key
  end.

(** [d.update(items)] *)
Definition update (d : dict) (items : list (string * value)) : dict :=
  foldl (fun acc kv => <[fst kv := snd kv]> acc) d items.

(** ** [LavaRuntime._shorten_cros_defconfig] *)

Definition _shorten_cros_defconfig (defconfig : string) : result string :=
  match Re.match_ CROS_CONFIG_RE defconfig with
  | None => Raise AttributeError
  | Some m =>
      match Re.groups m with
      | [kver; arch; flav; frag] =>
          let frag :=
            match frag with
            | Some f =>
                if negb (String.eqb f "") then replace "+" "-" (strip "+" f)
                else ""
            | None => ""
            end in
          let flav := option_map (get_or_key CROS_FLAVOURS) flav in
          arch ← expect_str arch;
          flav ← expect_str flav;
          kver ← expect_str kver;
          Ok (join "-" [arch; flav; kver; frag])
      | _ => Raise ValueError
      end
  end.

(** ** [LavaRuntime._shorten_cros_device_type] *)

Definition _shorten_cros_device_type (device_type : value) : value :=
  match device_type with
  | VStr s => VStr (get_or_key CROS_DEVICE_TYPES s)
  | VInt _ | VNone => device_type
  end.

(** ** [LavaRuntime._shorten_cros_name] *)

Definition _shorten_cros_name (params : dict) : result value :=
  defconfig_full ← getitem params "defconfig_full";
  match defconfig_full with
  | VStr d =>
      if startswith d "cros:" then
        tree ← getitem params "tree";
        git_branch ← getitem params "git_branch";
        git_describe ← getitem params "git_describe";
        arch ← getitem params "arch";
        defconfig ← _shorten_cros_defconfig d;
        build_environment ← getitem params "build_environment";
        device_type ← getitem params "device_type";
        plan ← getitem params "plan";
        name ← py_join "-" [tree; git_branch; git_describe; arch;
                            VStr defconfig; build_environment;
                            _shorten_cros_device_type device_type; plan];
        Ok (VStr (replace "/" "-" name))
      else
        getitem params "name"
  | VInt _ | VNone => Raise AttributeError
  end.

(** ** [LavaRuntime.job_file_name] *)

Definition job_file_name (params : dict) : result string :=
  name ← getitem params "name";
  py_join "." [name; VStr "yaml"].

(** ** [LavaRuntime._add_callback_params]

    The method updates [params] in place and returns nothing; here it
    returns the dictionary as it is when the method ends, together with
    the exception if it ends by one. *)

Definition _add_callback_params (params opts : dict) : dict * result unit :=
  let callback_id := get opts "id" in
  if negb (truthy callback_id) then (params, Ok tt)
  else
    let callback_type := get opts "type" in
    let named : result dict :=
      if value_eqb callback_type (VStr "kernelci") then
        plan ← getitem params "plan";
        let lava_cb :=
          if value_eqb plan (VStr "boot") then "boot" else "test" in
        Ok (<["callback_name" := VStr (join "/" ["lava"; lava_cb])]> params)
      else Ok params in
    match named with
    | Raise e => (params, Raise e)
    | Ok params1 =>
        match (url ← getitem opts "url";
               dataset ← getitem opts "dataset";
               Ok (url, dataset)) with
        | Raise e => (params1, Raise e)
        | Ok (url, dataset) =>
            (update params1 [("callback", callback_id);
                             ("callback_url", url);
                             ("callback_dataset", dataset);
                             ("callback_type", callback_type)],
             Ok tt)
        end
    end.

(** ** [LavaRuntime.generate]

    [generate] works with collaborators from outside this module: the
    plan configuration's [get_template_path], the base class's
    [_alias_device_type] and the jinja2 template engine.  They are
    parameters of the definition.  Each of them may raise, either one of
    the exceptions above or one of its own, of a type [E] of which nothing
    is assumed. *)

Inductive raised (E : Type) : Type :=
| Builtin (e : exn)
| Foreign (e : E).

Arguments Builtin {E} e.
Arguments Foreign {E} e.

Inductive outcome (E A : Type) : Type :=
| Return (a : A)
| Throw (e : raised E).

Arguments Return {E A} a.
Arguments Throw {E A} e.

#[global] Instance outcome_ret {E} : MRet (outcome E) := fun A a => Return a.

#[global] Instance outcome_bind {E} : MBind (outcome E) := fun A B k r =>
  match r with
  | Return a => k a
  | Throw e => Throw e
  end.

(** A computation of this module inside [generate]. *)
Definition lift {E A : Type} (r : result A) : outcome E A :=
  match r with
  | Ok a => Return a
  | Raise e => Throw (Builtin e)
  end.

(** The attributes of [self.config] read by [generate]: those of
    [_get_priority], [queue_timeout] and [name]. *)
Record lab_config : Type := {
  priorities : runtime_config;
  queue_timeout : value;
  name : value;
}.

Record device_config : Type := {
  boot_method : value;
}.

Definition DEFAULT_TEMPLATE_PATHS : list string :=
  ["config/lava"; "/etc/kernelci/lava"].

(** The truth value of an optional dictionary: [None] and [{}] are false. *)
Definition dict_truthy (o : option dict) : bool :=
  match o with
  | Some d => negb (size d =? 0)%nat
  | None => false
  end.

Section Generate.

Context {E loader environment template : Type}.

Variable get_template_path : plan_config -> value -> outcome E string.
Variable _alias_device_type : value -> outcome E value.
Variable FileSystemLoader : list string -> loader.
Variable Environment : loader -> list string -> environment.
Variable add_kci_raise : environment -> environment.
Variable get_template : environment -> string -> outcome E template.
Variable render : template -> dict -> outcome E string.

(** [params] is updated in place: the first component is the dictionary
    as it is when the method ends, the second is the rendered job or the
    exception. *)
Definition generate (config : lab_config) (params : dict)
    (device_config : device_config) (plan_config : plan_config)
    (callback_opts : option dict) (templates_paths : option (list string))
  : dict * outcome E string :=
  let templates_paths :=
    match templates_paths with
    | None => DEFAULT_TEMPLATE_PATHS
    | Some paths => paths
    end in
  match (short_template_file ←
           get_template_path plan_config (boot_method device_config);
         base_name ← lift (getitem params "base_device_type");
         priority ← lift (_get_priority (priorities config) plan_config);
         alias ← _alias_device_type base_name;
         shortened ← lift (_shorten_cros_name params);
         Return (short_template_file,
                 update params [("queue_timeout", queue_timeout config);
                                ("lab_name", name config);
                                ("base_device_type", alias);
                                ("priority", priority);
                                ("name", shortened)])) with
  | Throw e => (params, Throw e)
  | Return (short_template_file, params1) =>
      let '(params2, added) :=
        match callback_opts with
        | Some opts =>
            if dict_truthy callback_opts
            then _add_callback_params params1 opts
            else (params1, Ok tt)
        | None => (params1, Ok tt)
        end in
      match added with
      | Raise e => (params2, Throw (Builtin e))
      | Ok _ =>
          let jinja2_env :=
            add_kci_raise
              (Environment (FileSystemLoader templates_paths)
                 ["jinja2.ext.do"]) in
          (params2,
           template ← get_template jinja2_env short_template_file;
           render template params2)
      end
  end.

End Generate.

(** ** Notions used in the statements

    The statements about [CROS_CONFIG_RE] speak of the characters its
    four sets accept, of the groups the matcher settles on, and of the
    keys and values a dictionary holds. *)

(** Every character of [s] is matched by [a]. *)
Fixpoint all_match (a : Re.atom) (s : string) : bool :=
  match s with
  | EmptyString => true
  | String c s' => Re.atom_matches a c && all_match a s'
  end.

(** The sets [[0-9.]], [[a-z0-9_]], [[a-z0-9-._]] and [[a-z0-9-+]] of the
    groups 1 to 4 of [CROS_CONFIG_RE]. *)
Definition kver_chars : Re.atom :=
  Re.OneOf [Re.SRange "0" "9"; Re.SChar "."].

Definition arch_chars : Re.atom :=
  Re.OneOf [Re.SRange "a" "z"; Re.SRange "0" "9"; Re.SChar "_"].

Definition flav_chars : Re.atom :=
  Re.OneOf [Re.SRange "a" "z"; Re.SRange "0" "9"; Re.SChar "-"; Re.SChar ".";
            Re.SChar "_"].

Definition frag_chars : Re.atom :=
  Re.OneOf [Re.SRange "a" "z"; Re.SRange "0" "9"; Re.SChar "-"; Re.SChar "+"].

(** The groups of the first way to match [r] at the start of [s], the
    one [match_] returns. *)
Definition first_caps (r : Re.regex) (s : string) : option Re.captures :=
  match Re.run r s with
  | (_, caps, _) :: _ => Some caps
  | [] => None
  end.

(** [captured r w caps]: the text [w] is in the language of [r], and
    matching it sets the groups [caps] (last set first). *)
Inductive captured : Re.regex -> string -> Re.captures -> Prop :=
| cap_eps : captured Re.Eps "" []
| cap_chr a c :
    Re.atom_matches a c = true -> captured (Re.Chr a) (String c "") []
| cap_plus a w : Re.plus_lang a w -> captured (Re.Plus a) w []
| cap_opt_none r : captured (Re.Opt r) "" []
| cap_opt_some r w caps : captured r w caps -> captured (Re.Opt r) w caps
| cap_group n r w caps :
    captured r w caps -> captured (Re.Group n r) w ((n, w) :: caps)
| cap_cat r1 r2 w1 w2 caps1 caps2 :
    captured r1 w1 caps1 -> captured r2 w2 caps2 ->
    captured (Re.Cat r1 r2) (w1 +:+ w2) (caps2 ++ caps1)%list.

(** [key not in d] *)
Definition absent (d : dict) (key : string) : bool :=
  match d !! key with
  | Some _ => false
  | None => true
  end.

(** [isinstance(v, str)] *)
Definition is_str (v : value) : bool :=
  match v with
  | VStr _ => true
  | VInt _ | VNone => false
  end.

(** ** Collaborators for examples of [generate]

    The template path is made from the boot method, no device type has
    an alias, a template is found in the first directory of the search
    path, and rendering it gives back the path of the template. *)
Definition example_template_path (_ : plan_config) (boot_method : value)
  : outcome unit string :=
  match boot_method with
  | VStr m => Return ("boot/generic-" +:+ m +:+ "-template.jinja2")
  | VInt _ | VNone => Throw (Builtin TypeError)
  end.

Definition example_alias (device_type : value) : outcome unit value :=
  Return device_type.

Definition example_loader (paths : list string) : list string := paths.

Definition example_environment (loader : list string) (_ : list string)
  : list string := loader.

Definition example_add_kci_raise (env : list string) : list string := env.

Definition example_get_template (env : list string) (file : string)
  : outcome unit string :=
  match env with
  | path :: _ => Return (path +:+ "/" +:+ file)
  | [] => Throw (Foreign tt)
  end.

Definition example_render (t : string) (_ : dict) : outcome unit string :=
  Return t.

Definition generate_example
  : lab_config -> dict -> device_config -> plan_config -> option dict ->
    option (list string) -> dict * outcome unit string :=
  generate example_template_path example_alias example_loader
    example_environment example_add_kci_raise example_get_template
    example_render.

(** * Properties *)

(** ** The result monad *)

Lemma bind_Ok {A B : Type} (a : A) (k : A -> result B) :
  (Ok a ≫= k) = k a.
Proof. reflexivity. Qed.

(** ** Binary64 rounding

    What [SpecFloat] computes when a sum is rounded to 53 bits and then
    truncated to an integer. *)

Lemma digits2_pos_bounds (p : positive) :
  2 ^ (Zpos (digits2_pos p) - 1) <= Zpos p < 2 ^ Zpos (digits2_pos p).
Proof.
  induction p as [p IH|p IH|]; cbn [digits2_pos].
  - rewrite Pos2Z.inj_succ.
    replace (Z.succ (Zpos (digits2_pos p)) - 1)
      with (Z.succ (Zpos (digits2_pos p) - 1)) by lia.
    rewrite !Z.pow_succ_r by lia. lia.
  - rewrite Pos2Z.inj_succ.
    replace (Z.succ (Zpos (digits2_pos p)) - 1)
      with (Z.succ (Zpos (digits2_pos p) - 1)) by lia.
    rewrite !Z.pow_succ_r by lia. lia.
  - cbn. lia.
Qed.

Lemma digits2_pos_unique (p : positive) (n : Z) :
  2 ^ (n - 1) <= Zpos p < 2 ^ n -> Zpos (digits2_pos p) = n.
Proof.
  intros [Hlo Hhi]. pose proof (digits2_pos_bounds p) as [Dlo Dhi].
  set (d := Zpos (digits2_pos p)) in *.
  assert (0 < d) by (subst d; lia).
  assert (Hn : 0 < n).
  { destruct (Z.ltb_spec 0 n) as [|Hle]; [easy|]. exfalso.
    destruct (Z.eq_dec n 0) as [->|Hne].
    - cbn in Hhi. lia.
    - rewrite Z.pow_neg_r in Hhi by lia. lia. }
  destruct (Z.lt_trichotomy d n) as [Hlt|[Heq|Hgt]]; [|easy|].
  - assert (2 ^ d <= 2 ^ (n - 1)) by (apply Z.pow_le_mono_r; lia). lia.
  - assert (2 ^ n <= 2 ^ (d - 1)) by (apply Z.pow_le_mono_r; lia). lia.
Qed.

Lemma shr_1_m (mrs : shr_record) :
  0 <= shr_m mrs -> shr_m (shr_1 mrs) = shr_m mrs / 2.
Proof.
  destruct mrs as [m r s]. cbn [shr_m]. intros Hm.
  destruct m as [|[p|p|]|p]; cbn [shr_1 shr_m].
  - reflexivity.
  - apply Z.div_unique with (r := 1); lia.
  - apply Z.div_unique with (r := 0); lia.
  - reflexivity.
  - lia.
Qed.

Lemma iter_pos_shr_1_m (k : positive) :
  forall mrs, 0 <= shr_m mrs ->
    shr_m (SpecFloat.iter_pos shr_1 k mrs) = shr_m mrs / 2 ^ Zpos k.
Proof.
  induction k as [k IH|k IH|]; intros mrs Hm; cbn [SpecFloat.iter_pos].
  - assert (H1 : 0 <= shr_m (shr_1 mrs)).
    { rewrite shr_1_m by easy. apply Z.div_pos; lia. }
    assert (H2 : 0 <= shr_m (SpecFloat.iter_pos shr_1 k (shr_1 mrs))).
    { rewrite IH by easy. apply Z.div_pos; [easy|].
      apply Z.pow_pos_nonneg; lia. }
    rewrite IH, IH, shr_1_m by easy.
    rewrite !Z.div_div by (try apply Z.pow_pos_nonneg; lia).
    f_equal.
    replace (Zpos k~1) with (1 + Zpos k + Zpos k) by lia.
    rewrite !Z.pow_add_r by lia. lia.
  - assert (H2 : 0 <= shr_m (SpecFloat.iter_pos shr_1 k mrs)).
    { rewrite IH by easy. apply Z.div_pos; [easy|].
      apply Z.pow_pos_nonneg; lia. }
    rewrite IH, IH by easy.
    rewrite !Z.div_div by (try apply Z.pow_pos_nonneg; lia).
    f_equal.
    replace (Zpos k~0) with (Zpos k + Zpos k) by lia.
    rewrite !Z.pow_add_r by lia. lia.
  - rewrite shr_1_m by easy. reflexivity.
Qed.

Lemma round_nearest_even_bounds (m : Z) (l : location) :
  m <= round_nearest_even m l <= m + 1.
Proof.
  destruct l as [|[]]; cbn [round_nearest_even]; try lia.
  destruct (Z.even m); lia.
Qed.

Lemma iter_xO (m d : positive) :
  Zpos (Pos.iter xO m d) = Zpos m * 2 ^ Zpos d.
Proof.
  induction d as [|d IH] using Pos.peano_ind.
  - cbn [Pos.iter]. lia.
  - rewrite Pos.iter_succ, Pos2Z.inj_succ, Z.pow_succ_r by lia.
    change (Zpos (Pos.iter xO m d)~0) with (2 * Zpos (Pos.iter xO m d)).
    rewrite IH. lia.
Qed.

Lemma div_succ_same (a b : Z) :
  0 < b -> a mod b + 1 < b -> (a + 1) / b = a / b.
Proof.
  intros Hb Hr. symmetry. apply Z.div_unique with (r := a mod b + 1).
  - pose proof (Z.mod_pos_bound a b Hb). lia.
  - pose proof (Z.div_mod a b). lia.
Qed.

Lemma fexp_normal (n : Z) : -1074 <= n - 53 -> fexp 53 1024 n = n - 53.
Proof. unfold fexp, emin. lia. Qed.

Lemma shr_spec (mrs : shr_record) (e k : Z) :
  0 <= k -> 0 <= shr_m mrs ->
  shr_m (fst (shr mrs e k)) = shr_m mrs / 2 ^ k /\ snd (shr mrs e k) = e + k.
Proof.
  intros Hk Hm. unfold shr. destruct k as [|p|p]; cbn [fst snd].
  - rewrite Z.pow_0_r, Z.div_1_r. lia.
  - split; [now apply iter_pos_shr_1_m|reflexivity].
  - lia.
Qed.

Lemma shr_fexp_spec (p : positive) (e k : Z) (l : location) :
  0 <= k -> -1074 <= e + k ->
  Zpos (digits2_pos p) = 53 + k ->
  shr_m (fst (shr_fexp 53 1024 (Zpos p) e l)) = Zpos p / 2 ^ k
  /\ snd (shr_fexp 53 1024 (Zpos p) e l) = e + k.
Proof.
  intros Hk He Hd. unfold shr_fexp. cbn [Zdigits2]. rewrite Hd.
  rewrite fexp_normal by lia.
  replace (53 + k + e - 53 - e) with k by lia.
  assert (Hm : shr_m (shr_record_of_loc (Zpos p) l) = Zpos p)
    by (destruct l as [|[]]; reflexivity).
  destruct (shr_spec (shr_record_of_loc (Zpos p) l) e k) as [A B];
    [easy|rewrite Hm; lia|].
  rewrite Hm in A. now split.
Qed.

Lemma to_int_binary_normalize (M : positive) (k j : Z) :
  0 <= k -> 0 <= j <= 1074 ->
  Zpos (digits2_pos M) = 53 + k ->
  Zpos M mod 2 ^ (k + j) + 2 ^ k < 2 ^ (k + j) ->
  Float64.to_int (binary_normalize 53 1024 (Zpos M) (- (k + j)) false)
  = Ok (Zpos M / 2 ^ (k + j)).
Proof.
  intros Hk Hj Hd Hfrac.
  assert (P2k : 0 < 2 ^ k) by (apply Z.pow_pos_nonneg; lia).
  assert (P2j : 0 < 2 ^ j) by (apply Z.pow_pos_nonneg; lia).
  assert (Hkj : 2 ^ (k + j) = 2 ^ k * 2 ^ j) by (apply Z.pow_add_r; lia).
  (* the fraction bits leave room for one rounding step *)
  assert (Hj1 : 1 <= j).
  { destruct (Z.eq_dec j 0) as [->|]; [|lia]. exfalso.
    rewrite Z.add_0_r in Hfrac.
    pose proof (Z.mod_pos_bound (Zpos M) (2 ^ k) P2k). lia. }
  set (m1 := Zpos M / 2 ^ k).
  assert (Hm1 : 2 ^ 52 <= m1 < 2 ^ 53).
  { pose proof (digits2_pos_bounds M) as [Dlo Dhi]. rewrite Hd in Dlo, Dhi.
    replace (53 + k - 1) with (52 + k) in Dlo by lia.
    rewrite Z.pow_add_r in Dlo, Dhi by lia. subst m1. split.
    - apply Z.div_le_lower_bound; lia.
    - apply Z.div_lt_upper_bound; lia. }
  assert (Hlow : m1 mod 2 ^ j + 1 < 2 ^ j).
  { rewrite Hkj, Z.rem_mul_r in Hfrac by lia. fold m1 in Hfrac.
    pose proof (Z.mod_pos_bound (Zpos M) (2 ^ k) P2k).
    apply (Z.mul_lt_mono_pos_l (2 ^ k)); lia. }
  assert (Hq : m1 / 2 ^ j = Zpos M / 2 ^ (k + j)).
  { subst m1. rewrite Z.div_div, Hkj by lia. reflexivity. }
  unfold binary_normalize, binary_round.
  (* no left shift: the mantissa has at least 53 bits *)
  rewrite Hd, fexp_normal by lia. unfold shl_align.
  replace (53 + k + - (k + j) - 53 - - (k + j)) with k by lia.
  assert (Hal : match k with
                | Zneg d => (Pos.iter xO M d, 53 + k + - (k + j) - 53)
                | _ => (M, - (k + j))
                end = (M, - (k + j)))
    by (destruct k; [reflexivity|reflexivity|lia]).
  rewrite Hal. clear Hal. unfold binary_round_aux.
  (* first shift: k bits *)
  destruct (shr_fexp_spec M (- (k + j)) k loc_Exact) as [E1m E1e];
    [lia..|easy|].
  destruct (shr_fexp 53 1024 (Zpos M) (- (k + j)) loc_Exact) as [mrs1 e1].
  cbn [fst snd] in E1m, E1e. fold m1 in E1m. rewrite E1m.
  pose proof (round_nearest_even_bounds m1 (loc_of_shr_record mrs1)) as Hrnd.
  set (m2 := round_nearest_even m1 (loc_of_shr_record mrs1)) in *.
  subst e1. replace (- (k + j) + k) with (- j) by lia.
  destruct m2 as [|p2|p2] eqn:Em2; [lia| |lia].
  assert (Hm2 : Zpos p2 / 2 ^ j = Zpos M / 2 ^ (k + j)).
  { rewrite <- Hq. destruct (Z.eq_dec (Zpos p2) m1) as [->|]; [reflexivity|].
    replace (Zpos p2) with (m1 + 1) by lia. now apply div_succ_same. }
  destruct (Z.eq_dec (Zpos p2) (2 ^ 53)) as [Htop|Htop].
  - (* the rounded mantissa has 54 bits: one more shift *)
    destruct (shr_fexp_spec p2 (- j) 1 loc_Exact) as [E2m E2e]; [lia..| |].
    { apply digits2_pos_unique. rewrite Htop. cbn. lia. }
    destruct (shr_fexp 53 1024 (Zpos p2) (- j) loc_Exact) as [mrs2 e2].
    cbn [fst snd] in E2m, E2e. rewrite E2m. subst e2.
    rewrite Htop. change (2 ^ 53 / 2 ^ 1) with (Zpos (2 ^ 52)).
    cbv iota beta.
    replace (- j + 1 <=? 1024 - 53) with true by (symmetry; apply Z.leb_le; lia).
    cbn [Float64.to_int cond_Zopp].
    rewrite Z.shiftl_div_pow2 by lia. f_equal.
    rewrite <- Hm2, Htop.
    replace j with (1 + (j - 1)) at 2 by lia.
    rewrite Z.pow_add_r by lia.
    replace (- (- j + 1)) with (j - 1) by lia.
    change (2 ^ 53) with (2 ^ 1 * 2 ^ 52).
    rewrite Z.div_mul_cancel_l; [reflexivity| |lia].
    apply Z.pow_nonzero; lia.
  - destruct (shr_fexp_spec p2 (- j) 0 loc_Exact) as [E2m E2e]; [lia..| |].
    { apply digits2_pos_unique. change (53 + 0 - 1) with 52.
      change (53 + 0) with 53. lia. }
    destruct (shr_fexp 53 1024 (Zpos p2) (- j) loc_Exact) as [mrs2 e2].
    cbn [fst snd] in E2m, E2e. rewrite E2m, Z.pow_0_r, Z.div_1_r. subst e2.
    replace (- j + 0 <=? 1024 - 53) with true by (symmetry; apply Z.leb_le; lia).
    cbn [Float64.to_int cond_Zopp].
    rewrite Z.shiftl_div_pow2 by lia. f_equal.
    rewrite <- Hm2. f_equal. f_equal. lia.
Qed.

Lemma shl_align_value (m : positive) (e e' : Z) :
  e' <= e -> Zpos (fst (shl_align m e e')) = Zpos m * 2 ^ (e - e').
Proof.
  intros He. unfold shl_align.
  destruct (e' - e) as [|d|d] eqn:Ed; cbn [fst]; [|lia|].
  - replace (e - e') with 0 by lia. lia.
  - rewrite iter_xO. f_equal. f_equal. lia.
Qed.

(** Adding the integer [lo] to a number [x] whose fraction is not within
    2^-J of the next integer, the sum being below 2^(52-J): the truncated
    sum is the truncated [x] plus [lo]. *)
Lemma to_int_add_int (J : Z) (mx my : positive) (ex ey lo : Z) :
  0 <= J <= 52 ->
  Zpos (digits2_pos mx) = 53 ->
  -1000 <= ex <= - J -> -1000 <= ey <= 0 ->
  Zpos my = lo * 2 ^ (- ey) ->
  Zpos mx / 2 ^ (- ex) + lo < 2 ^ (52 - J) ->
  Zpos mx mod 2 ^ (- ex) + 2 ^ (- ex - J) <= 2 ^ (- ex) ->
  Float64.to_int
    (SFadd 53 1024 (S754_finite false mx ex) (S754_finite false my ey))
  = Ok (Zpos mx / 2 ^ (- ex) + lo).
Proof.
  intros HJ Hdx Hex Hey Hmy Hmag Hfrac.
  cbn [SFadd cond_Zopp].
  set (ez := Z.min ex ey). set (n := - ez).
  assert (Hn : J <= n <= 1000) by (subst n ez; lia).
  rewrite !shl_align_value by (subst ez; lia).
  set (X := Zpos mx * 2 ^ (ex - ez)).
  assert (P2n : 0 < 2 ^ n) by (apply Z.pow_pos_nonneg; lia).
  assert (P2x : 0 < 2 ^ (- ex)) by (apply Z.pow_pos_nonneg; lia).
  assert (P2d : 0 < 2 ^ (ex - ez)) by (apply Z.pow_pos_nonneg; subst ez; lia).
  assert (Hsplit : 2 ^ n = 2 ^ (- ex) * 2 ^ (ex - ez)).
  { rewrite <- Z.pow_add_r by (subst ez; lia). f_equal. subst n. lia. }
  assert (HY : Zpos my * 2 ^ (ey - ez) = lo * 2 ^ n).
  { rewrite Hmy, <- Z.mul_assoc, <- Z.pow_add_r by (subst ez; lia).
    f_equal. f_equal. subst n. lia. }
  rewrite HY.
  assert (Hlo : 0 < lo).
  { assert (0 < 2 ^ (- ey)) by (apply Z.pow_pos_nonneg; lia). nia. }
  assert (HXq : X / 2 ^ n = Zpos mx / 2 ^ (- ex)).
  { subst X. rewrite Hsplit. apply Z.div_mul_cancel_r; lia. }
  assert (HXr : X mod 2 ^ n = Zpos mx mod 2 ^ (- ex) * 2 ^ (ex - ez)).
  { subst X. rewrite Hsplit. apply Z.mul_mod_distr_r; lia. }
  assert (HXlo : 2 ^ 52 <= X).
  { pose proof (digits2_pos_bounds mx) as [Dlo _]. rewrite Hdx in Dlo.
    change (53 - 1) with 52 in Dlo. subst X. nia. }
  destruct (X + lo * 2 ^ n) as [|M|M] eqn:EM; [lia| |lia].
  set (d := Zpos (digits2_pos M)).
  pose proof (digits2_pos_bounds M) as [Dlo Dhi]. fold d in Dlo, Dhi.
  assert (Hq : Zpos M / 2 ^ n = Zpos mx / 2 ^ (- ex) + lo).
  { rewrite <- EM, Z.div_add by lia. now rewrite HXq. }
  assert (Hd53 : 53 <= d).
  { destruct (Z.le_gt_cases 53 d) as [|Hlt]; [easy|exfalso].
    assert (2 ^ d <= 2 ^ 52) by (apply Z.pow_le_mono_r; lia). lia. }
  assert (Hdn : d <= 52 - J + n).
  { destruct (Z.le_gt_cases d (52 - J + n)) as [|Hgt]; [easy|exfalso].
    assert (2 ^ (52 - J + n) <= 2 ^ (d - 1)) by (apply Z.pow_le_mono_r; lia).
    assert (Zpos M < 2 ^ (52 - J + n)); [|lia].
    rewrite Z.pow_add_r by lia.
    pose proof (Z.mod_pos_bound (Zpos M) (2 ^ n) P2n).
    pose proof (Z.div_mod (Zpos M) (2 ^ n)). nia. }
  replace ez with (- ((d - 53) + (n - (d - 53)))) by (subst n; lia).
  rewrite to_int_binary_normalize; [| lia | lia | subst d; lia |].
  - replace (d - 53 + (n - (d - 53))) with n by lia. now rewrite Hq.
  - replace (d - 53 + (n - (d - 53))) with n by lia.
    rewrite <- EM, Z.mod_add, HXr by lia.
    assert (2 ^ (d - 53) < 2 ^ (n - J)) by (apply Z.pow_lt_mono_r; lia).
    assert (2 ^ (n - J) = 2 ^ (- ex - J) * 2 ^ (ex - ez)).
    { rewrite <- Z.pow_add_r by (subst ez; lia). f_equal. subst n. lia. }
    nia.
Qed.

(** Rounding a mantissa of 53 + k bits, when the rounded mantissa still
    has 53 bits. *)
Lemma binary_round_aux_normal (M : positive) (e k : Z) (l : location) :
  0 <= k -> -1074 <= e + k <= 971 ->
  Zpos (digits2_pos M) = 53 + k ->
  exists m2, Zpos M / 2 ^ k <= Zpos m2 <= Zpos M / 2 ^ k + 1
    /\ (Zpos m2 < 2 ^ 53 ->
        binary_round_aux 53 1024 false (Zpos M) e l
        = S754_finite false m2 (e + k)).
Proof.
  intros Hk He Hd.
  assert (P2k : 0 < 2 ^ k) by (apply Z.pow_pos_nonneg; lia).
  set (m1 := Zpos M / 2 ^ k).
  assert (Hm1 : 2 ^ 52 <= m1 < 2 ^ 53).
  { pose proof (digits2_pos_bounds M) as [Dlo Dhi]. rewrite Hd in Dlo, Dhi.
    replace (53 + k - 1) with (52 + k) in Dlo by lia.
    rewrite Z.pow_add_r in Dlo, Dhi by lia. subst m1. split.
    - apply Z.div_le_lower_bound; lia.
    - apply Z.div_lt_upper_bound; lia. }
  unfold binary_round_aux.
  destruct (shr_fexp_spec M e k l) as [E1m E1e]; [lia..|easy|].
  destruct (shr_fexp 53 1024 (Zpos M) e l) as [mrs1 e1].
  cbn [fst snd] in E1m, E1e. fold m1 in E1m. rewrite E1m. subst e1.
  pose proof (round_nearest_even_bounds m1 (loc_of_shr_record mrs1)) as Hrnd.
  destruct (round_nearest_even m1 (loc_of_shr_record mrs1)) as [|p2|p2];
    [lia| |lia].
  exists p2. split; [exact Hrnd|]. intros Htop.
  destruct (shr_fexp_spec p2 (e + k) 0 loc_Exact) as [E2m E2e]; [lia..| |].
  { apply digits2_pos_unique. change (53 + 0 - 1) with 52.
    change (53 + 0) with 53. lia. }
  destruct (shr_fexp 53 1024 (Zpos p2) (e + k) loc_Exact) as [mrs2 e2].
  cbn [fst snd] in E2m, E2e. rewrite E2m, Z.pow_0_r, Z.div_1_r. subst e2.
  rewrite Z.add_0_r.
  now replace (e + k <=? 1024 - 53) with true by (symmetry; apply Z.leb_le; lia).
Qed.

Lemma binary_round_aux_exact (M : positive) (e : Z) :
  -1074 <= e <= 971 ->
  Zpos (digits2_pos M) = 53 ->
  binary_round_aux 53 1024 false (Zpos M) e loc_Exact = S754_finite false M e.
Proof.
  intros He Hd.
  assert (Hs : shr_fexp 53 1024 (Zpos M) e loc_Exact
               = ({| shr_m := Zpos M; shr_r := false; shr_s := false |}, e)).
  { unfold shr_fexp. cbn [Zdigits2]. rewrite Hd, fexp_normal by lia.
    replace (53 + e - 53 - e) with 0 by lia. reflexivity. }
  unfold binary_round_aux. rewrite Hs.
  cbn [shr_m loc_of_shr_record round_nearest_even]. rewrite Hs. cbn [shr_m].
  now replace (e <=? 1024 - 53) with true by (symmetry; apply Z.leb_le; lia).
Qed.

(** [float(k)] is exact below 2^53. *)
Lemma of_int_exact (k : Z) :
  1 <= k < 2 ^ 53 ->
  exists m e, Float64.of_int k = Ok (S754_finite false m e)
              /\ -52 <= e <= 0 /\ Zpos m = k * 2 ^ (- e).
Proof.
  intros Hk. destruct k as [|p|p]; [lia| |lia].
  set (d := Zpos (digits2_pos p)).
  pose proof (digits2_pos_bounds p) as [Dlo Dhi]. fold d in Dlo, Dhi.
  assert (Hd : 1 <= d <= 53).
  { split; [subst d; lia|].
    destruct (Z.le_gt_cases d 53) as [|Hgt]; [easy|exfalso].
    assert (2 ^ 53 <= 2 ^ (d - 1)) by (apply Z.pow_le_mono_r; lia). lia. }
  unfold Float64.of_int, binary_normalize, binary_round.
  unfold Float64.prec, Float64.emax. fold d.
  rewrite Z.add_0_r, fexp_normal by lia.
  assert (Hm : Zpos (fst (shl_align p 0 (d - 53))) = Zpos p * 2 ^ (53 - d)).
  { rewrite shl_align_value by lia. f_equal. f_equal. lia. }
  assert (He : snd (shl_align p 0 (d - 53)) = d - 53).
  { unfold shl_align. destruct (d - 53 - 0) eqn:E; cbn [snd]; lia. }
  destruct (shl_align p 0 (d - 53)) as [m e]. cbn [fst snd] in Hm, He.
  subst e.
  assert (Hdig : Zpos (digits2_pos m) = 53).
  { apply digits2_pos_unique. rewrite Hm.
    assert (0 < 2 ^ (53 - d)) by (apply Z.pow_pos_nonneg; lia).
    assert (H52 : 2 ^ (53 - 1) = 2 ^ (d - 1) * 2 ^ (53 - d)).
    { rewrite <- Z.pow_add_r by lia. f_equal. lia. }
    assert (H53 : 2 ^ 53 = 2 ^ d * 2 ^ (53 - d)).
    { rewrite <- Z.pow_add_r by lia. f_equal. lia. }
    rewrite H52, H53. nia. }
  rewrite binary_round_aux_exact by (lia || exact Hdig).
  cbn [Float64.is_infinite]. exists m, (d - 53). split; [reflexivity|].
  split; [lia|]. rewrite Hm. f_equal. f_equal. lia.
Qed.

(** The quotient [a / 100]: a normal number whose integer part is the
    integer quotient and whose fraction is at most 0.99 and one rounding
    step. *)
Lemma int_truediv_100_shape (a : Z) :
  1 <= a < 2 ^ 40 ->
  exists mx ex,
    Float64.int_truediv a 100 = Ok (S754_finite false mx ex)
    /\ Zpos (digits2_pos mx) = 53
    /\ -60 <= ex <= -19
    /\ Zpos mx / 2 ^ (- ex) = a / 100
    /\ Zpos mx mod 2 ^ (- ex) + 2 ^ (- ex - 11) <= 2 ^ (- ex).
Proof.
  intros Ha. destruct a as [|pa|pa]; [lia| |lia].
  set (d1 := Zpos (digits2_pos pa)).
  pose proof (digits2_pos_bounds pa) as [Dlo Dhi]. fold d1 in Dlo, Dhi.
  assert (Hd1 : 1 <= d1 <= 40).
  { split; [subst d1; lia|].
    destruct (Z.le_gt_cases d1 40) as [|Hgt]; [easy|exfalso].
    assert (2 ^ 40 <= 2 ^ (d1 - 1)) by (apply Z.pow_le_mono_r; lia). lia. }
  unfold Float64.int_truediv. change (100 =? 0) with false. cbv iota.
  unfold Float64.prec, Float64.emax.
  cbn [Float64.exact SFdiv xorb]. unfold SFdiv_core_binary.
  cbn [Zdigits2]. fold d1. change (Zpos (digits2_pos 100)) with 7.
  rewrite !Z.add_0_r, fexp_normal by lia.
  replace (Z.min (d1 - 7 - 53) (0 - 0)) with (d1 - 60) by lia.
  replace (0 - 0 - (d1 - 60)) with (60 - d1) by lia.
  set (m' := Zpos pa * 2 ^ (60 - d1)).
  assert (Hm' : match 60 - d1 with
                | Zpos _ => Z.shiftl (Zpos pa) (60 - d1)
                | Z0 => Zpos pa
                | Zneg _ => 0
                end = m').
  { subst m'. destruct (60 - d1) eqn:E; [lia| |lia].
    apply Z.shiftl_mul_pow2. lia. }
  rewrite Hm'. clear Hm'.
  assert (Hm'b : 2 ^ 59 <= m' < 2 ^ 60).
  { assert (H59 : 2 ^ 59 = 2 ^ (d1 - 1) * 2 ^ (60 - d1)).
    { rewrite <- Z.pow_add_r by lia. f_equal. lia. }
    assert (H60 : 2 ^ 60 = 2 ^ d1 * 2 ^ (60 - d1)).
    { rewrite <- Z.pow_add_r by lia. f_equal. lia. }
    assert (0 < 2 ^ (60 - d1)) by (apply Z.pow_pos_nonneg; lia).
    rewrite H59, H60. subst m'. nia. }
  assert (Hq : fst (Z.div_eucl m' 100) = m' / 100) by reflexivity.
  destruct (Z.div_eucl m' 100) as [q r]. cbn [fst] in Hq.
  assert (Hqb : 2 ^ 52 <= q < 2 ^ 54).
  { rewrite Hq. split.
    - apply Z.div_le_lower_bound; [lia|].
      change (2 ^ 59) with (128 * 2 ^ 52) in Hm'b. lia.
    - apply Z.div_lt_upper_bound; [lia|].
      change (2 ^ 60) with (64 * 2 ^ 54) in Hm'b. lia. }
  destruct q as [|pq|pq]; [lia| |lia].
  set (dq := Zpos (digits2_pos pq)).
  pose proof (digits2_pos_bounds pq) as [Qlo Qhi]. fold dq in Qlo, Qhi.
  assert (Hdq : 53 <= dq <= 54).
  { split.
    - destruct (Z.le_gt_cases 53 dq) as [|Hlt]; [easy|exfalso].
      assert (2 ^ dq <= 2 ^ 52) by (apply Z.pow_le_mono_r; lia). lia.
    - destruct (Z.le_gt_cases dq 54) as [|Hgt]; [easy|exfalso].
      assert (2 ^ 54 <= 2 ^ (dq - 1)) by (apply Z.pow_le_mono_r; lia). lia. }
  set (k := dq - 53). set (N := 60 - d1 - k).
  assert (HN : 19 <= N <= 59) by (subst N k; lia).
  destruct (binary_round_aux_normal pq (d1 - 60) k (new_location 100 r))
    as (m2 & Hm2 & Hround); [subst k; lia|subst k; lia|subst k dq; lia|].
  set (T := 2 ^ N).
  assert (HT : T = 2048 * 2 ^ (N - 11)).
  { subst T. change 2048 with (2 ^ 11). rewrite <- Z.pow_add_r by lia.
    f_equal. lia. }
  assert (HP : 256 <= 2 ^ (N - 11)).
  { change 256 with (2 ^ 8). apply Z.pow_le_mono_r; lia. }
  assert (P2k : 0 < 2 ^ k) by (apply Z.pow_pos_nonneg; subst k; lia).
  (* the shifted quotient is the quotient at N fraction bits *)
  assert (Hm1 : Zpos pq / 2 ^ k = Zpos pa * T / 100).
  { rewrite Hq. subst m'.
    rewrite Z.div_div by lia.
    replace (2 ^ (60 - d1)) with (T * 2 ^ k).
    - rewrite Z.mul_assoc. apply Z.div_mul_cancel_r; lia.
    - subst T. rewrite <- Z.pow_add_r by (subst k; lia). f_equal.
      subst N. lia. }
  rewrite Hm1 in Hm2.
  set (n := Zpos pa / 100). set (f := Zpos pa mod 100).
  assert (Haf : Zpos pa = 100 * n + f) by (apply Z.div_mod; lia).
  assert (Hf : 0 <= f <= 99)
    by (pose proof (Z.mod_pos_bound (Zpos pa) 100); lia).
  assert (Hn : 0 <= n) by (apply Z.div_pos; lia).
  set (m1 := Zpos pa * T / 100) in *.
  assert (Hm1b : 100 * m1 <= Zpos pa * T < 100 * m1 + 100).
  { pose proof (Z.div_mod (Zpos pa * T) 100).
    pose proof (Z.mod_pos_bound (Zpos pa * T) 100). fold m1 in H. lia. }
  assert (HfT : 0 <= f * T <= 99 * T) by nia.
  assert (HaT : Zpos pa * T = 100 * (n * T) + f * T) by (rewrite Haf; ring).
  set (X := n * T) in *.
  assert (Hg : X <= m1 /\ m1 + 1 + 2 ^ (N - 11) <= X + T) by lia.
  assert (Hm1' : 2 ^ 52 <= m1 < 2 ^ 53).
  { rewrite <- Hm1. pose proof Qlo as Qlo'. pose proof Qhi as Qhi'.
    replace dq with (53 + k) in Qlo', Qhi' by (subst k; lia).
    replace (53 + k - 1) with (52 + k) in Qlo' by lia.
    rewrite Z.pow_add_r in Qlo', Qhi' by (subst k; lia). split.
    - apply Z.div_le_lower_bound; lia.
    - apply Z.div_lt_upper_bound; lia. }
  (* the rounded mantissa does not reach 2^53 *)
  assert (Htop : Zpos m2 < 2 ^ 53).
  { destruct (Z.eq_dec (Zpos m2) (2 ^ 53)) as [Heq|]; [exfalso|lia].
    assert (H53 : 2 ^ 53 = 2 ^ (53 - N) * T).
    { subst T. rewrite <- Z.pow_add_r by lia. f_equal. lia. }
    assert (0 < 2 ^ (53 - N)) by (apply Z.pow_pos_nonneg; lia).
    assert (Hm : m1 + 1 = 2 ^ (53 - N) * T) by lia.
    assert (Hu : (2 ^ (53 - N) - n) * T = m1 + 1 - X) by (subst X; lia).
    assert (0 < m1 + 1 - X < T) by lia.
    destruct (Z.le_gt_cases (2 ^ (53 - N) - n) 0); nia. }
  rewrite (Hround Htop). cbn [Float64.is_infinite].
  exists m2, (d1 - 60 + k).
  replace (- (d1 - 60 + k)) with N by (subst N; lia). fold T.
  assert (Hdiv : Zpos m2 / T = n).
  { symmetry.
    apply Z.div_unique with (r := Zpos m2 - X); [lia|subst X; lia]. }
  assert (Hmod : Zpos m2 mod T = Zpos m2 - X).
  { symmetry. apply Z.mod_unique with (q := n); [lia|subst X; lia]. }
  split; [reflexivity|]. split.
  { apply digits2_pos_unique. change (53 - 1) with 52. lia. }
  split; [subst N; lia|]. split; [exact Hdiv|]. rewrite Hmod. lia.
Qed.

(** ** The arithmetic of priority scaling *)

(** [int(a / 100)] is the integer quotient, and so is [int(a / 100 + lo)]
    up to the integer [lo]. *)
Lemma int_truediv_100 (a : Z) :
  0 <= a < 2 ^ 40 ->
  exists x, Float64.int_truediv a 100 = Ok x
    /\ Float64.to_int x = Ok (a / 100)
    /\ forall lo, 0 <= lo < 2 ^ 40 ->
         exists y, Float64.add_int x lo = Ok y
                   /\ Float64.to_int y = Ok (a / 100 + lo).
Proof.
  intros Ha. destruct (Z.eq_dec a 0) as [->|Hne].
  - (* the quotient is +0.0 *)
    exists (S754_zero false). do 2 (split; [reflexivity|]).
    intros lo Hlo. unfold Float64.add_int.
    destruct (Z.eq_dec lo 0) as [->|Hlo0].
    + exists (S754_zero false). split; reflexivity.
    + destruct (of_int_exact lo) as (m & e & Hy & He & Hm).
      { change (2 ^ 53) with (8192 * 2 ^ 40). lia. }
      rewrite Hy, bind_Ok. eexists; split; [reflexivity|].
      cbn [SFadd Float64.to_int cond_Zopp].
      rewrite Z.shiftl_div_pow2, Hm, Z.div_mul
        by (try apply Z.pow_nonzero; lia).
      reflexivity.
  - destruct (int_truediv_100_shape a)
      as (mx & ex & Hx & Hd & Hex & Hq & Hfrac); [lia|].
    exists (S754_finite false mx ex). split; [exact Hx|].
    assert (Hi : Float64.to_int (S754_finite false mx ex) = Ok (a / 100)).
    { cbn [Float64.to_int cond_Zopp]. rewrite Z.shiftl_div_pow2 by lia.
      now rewrite Hq. }
    split; [exact Hi|].
    intros lo Hlo. unfold Float64.add_int.
    destruct (Z.eq_dec lo 0) as [->|Hlo0].
    + exists (S754_finite false mx ex). split; [reflexivity|].
      now rewrite Z.add_0_r.
    + destruct (of_int_exact lo) as (my & ey & Hy & He & Hm).
      { change (2 ^ 53) with (8192 * 2 ^ 40). lia. }
      rewrite Hy, bind_Ok. eexists; split; [reflexivity|].
      unfold Float64.prec, Float64.emax. rewrite <- Hq.
      apply (to_int_add_int 11); try lia.
      rewrite Hq. change (2 ^ (52 - 11)) with (2 * 2 ^ 40).
      assert (a / 100 < 2 ^ 40) by (apply Z.div_lt_upper_bound; lia). lia.
Qed.

(** ** [_get_priority] *)

(** The flat mode on the priority scale. *)
Lemma flat_mode (config : runtime_config) (plan : plan_config) (p s : Z) :
  0 <= p <= 100 -> 1 <= s <= 100 ->
  priority config = VInt s ->
  get_default (params plan) "priority" (VInt 20) = VInt p ->
  _get_priority config plan = Ok (VInt (p * s / 100)).
Proof.
  intros Hp Hs Hcfg Hnom. unfold _get_priority. rewrite Hcfg, Hnom.
  cbn [truthy py_mul].
  replace (s =? 0) with false by (symmetry; apply Z.eqb_neq; lia).
  cbn [negb]. rewrite bind_Ok. cbn [py_truediv].
  destruct (int_truediv_100 (p * s)) as (x & Hx & Hint & _).
  { change (2 ^ 40) with 1099511627776. nia. }
  rewrite Hx, bind_Ok. unfold py_int. now rewrite Hint.
Qed.

(** The range mode, for bounds that fit in 31 bits. *)
Lemma range_mode (config : runtime_config) (plan : plan_config)
    (p pmin pmax : Z) :
  0 <= p <= 100 -> 0 <= pmin <= pmax -> pmax < 2 ^ 31 ->
  truthy (priority config) = false ->
  priority_min config = VInt pmin ->
  priority_max config = VInt pmax ->
  get_default (params plan) "priority" (VInt 20) = VInt p ->
  _get_priority config plan = Ok (VInt (p * (pmax - pmin) / 100 + pmin)).
Proof.
  intros Hp Hmin Hmax Hflat Hcmin Hcmax Hnom. unfold _get_priority.
  rewrite Hflat, Hcmin, Hcmax, Hnom.
  cbn [is_none negb andb py_sub]. rewrite bind_Ok. cbn [py_mul].
  rewrite bind_Ok. cbn [py_truediv].
  change (2 ^ 31) with 2147483648 in Hmax.
  destruct (int_truediv_100 (p * (pmax - pmin))) as (x & Hx & _ & Hadd).
  { change (2 ^ 40) with 1099511627776. nia. }
  destruct (Hadd pmin) as (y & Hy & Hint).
  { change (2 ^ 40) with 1099511627776. lia. }
  rewrite Hx, bind_Ok. cbn [py_add_float]. rewrite Hy, bind_Ok.
  unfold py_int. now rewrite Hint.
Qed.

Lemma scaled_bounds (p w : Z) :
  0 <= p <= 100 -> 0 <= w -> 0 <= p * w / 100 <= w.
Proof.
  intros Hp Hw. split.
  - apply Z.div_pos; nia.
  - apply Z.div_le_upper_bound; nia.
Qed.

(** C1 (as amended).  For a nominal plan priority [p] in 0..100 and a
    flat scale factor [s] in 1..100 in the runtime config, [_get_priority]
    returns [floor(p * s / 100)], and this value lies in 0..p. *)
Theorem get_priority_flat (config : runtime_config) (plan : plan_config)
    (p s : Z) :
  0 <= p <= 100 -> 1 <= s <= 100 ->
  priority config = VInt s ->
  get_default (params plan) "priority" (VInt 20) = VInt p ->
  _get_priority config plan = Ok (VInt (p * s / 100))
  /\ 0 <= p * s / 100 <= p.
Proof.
  intros Hp Hs Hcfg Hnom. split; [now apply flat_mode|].
  rewrite Z.mul_comm. apply scaled_bounds; lia.
Qed.

Lemma get_priority_flat_witness :
  _get_priority {| priority := VInt 50; priority_min := VNone;
                   priority_max := VNone |}
                {| params := {[ "priority" := VInt 20 ]} |}
  = Ok (VInt (20 * 50 / 100))
  /\ 0 <= 20 * 50 / 100 <= 20.
Proof.
  apply get_priority_flat; [lia | lia | reflexivity | reflexivity].
Defined.

(** C1 fails as stated at the scale factor 0, a value of the range 0..100:
    with nominal priority 50 and no range configured the method returns
    50, not [floor(50 * 0 / 100) = 0]. *)
Lemma get_priority_flat_zero_factor :
  let config := {| priority := VInt 0; priority_min := VNone;
                   priority_max := VNone |} in
  let plan := {| params := {[ "priority" := VInt 50 ]} |} in
  priority config = VInt 0
  /\ get_default (params plan) "priority" (VInt 20) = VInt 50
  /\ _get_priority config plan = Ok (VInt 50)
  /\ _get_priority config plan <> Ok (VInt (50 * 0 / 100)).
Proof. repeat split. discriminate. Qed.

(** C4 (as amended).  For a nominal plan priority [p] in 0..100, no flat
    scale factor and a range [0 <= priority_min <= priority_max < 2^31],
    [_get_priority] returns
    [floor(p * (priority_max - priority_min) / 100 + priority_min)], and
    this value lies in [priority_min .. priority_max]. *)
Theorem get_priority_range (config : runtime_config) (plan : plan_config)
    (p pmin pmax : Z) :
  0 <= p <= 100 -> 0 <= pmin <= pmax -> pmax < 2 ^ 31 ->
  priority config = VNone ->
  priority_min config = VInt pmin ->
  priority_max config = VInt pmax ->
  get_default (params plan) "priority" (VInt 20) = VInt p ->
  _get_priority config plan = Ok (VInt (p * (pmax - pmin) / 100 + pmin))
  /\ pmin <= p * (pmax - pmin) / 100 + pmin <= pmax.
Proof.
  intros Hp Hmin Hmax Hflat Hcmin Hcmax Hnom. split.
  - apply range_mode; try easy. now rewrite Hflat.
  - pose proof (scaled_bounds p (pmax - pmin) Hp). lia.
Qed.

Lemma get_priority_range_witness :
  _get_priority {| priority := VNone; priority_min := VInt 10;
                   priority_max := VInt 30 |}
                {| params := {[ "priority" := VInt 50 ]} |}
  = Ok (VInt (50 * (30 - 10) / 100 + 10))
  /\ 10 <= 50 * (30 - 10) / 100 + 10 <= 30.
Proof.
  apply get_priority_range;
    [lia | lia | now compute | reflexivity | reflexivity | reflexivity
    | reflexivity].
Defined.

(** C4 fails as stated below zero, where [int()] rounds toward zero and
    not down: with nominal priority 10 and the range -10..-5 the method
    returns [int(0.5 - 10) = -9], not [floor(-9.5) = -10]. *)
Lemma get_priority_range_negative :
  let config := {| priority := VNone; priority_min := VInt (-10);
                   priority_max := VInt (-5) |} in
  let plan := {| params := {[ "priority" := VInt 10 ]} |} in
  -10 <= -5
  /\ get_default (params plan) "priority" (VInt 20) = VInt 10
  /\ _get_priority config plan = Ok (VInt (-9))
  /\ _get_priority config plan
     <> Ok (VInt (10 * (-5 - -10) / 100 + -10)).
Proof. repeat split; [lia | discriminate]. Qed.

(** Beyond 2^53 the bounds themselves are rounded when they are added as
    floats: with both bounds at 2^53 + 1 the method returns 2^53, which is
    below the range. *)
Lemma get_priority_range_beyond_binary64 :
  _get_priority {| priority := VNone; priority_min := VInt (2 ^ 53 + 1);
                   priority_max := VInt (2 ^ 53 + 1) |}
                {| params := {[ "priority" := VInt 0 ]} |}
  = Ok (VInt (2 ^ 53)).
Proof. vm_compute. reflexivity. Qed.

(** C6 (as amended).  The nominal priority is 20 when the plan supplies
    none; a flat scale factor other than 0 takes precedence over a
    configured range and is applied as if no range were there; with no
    flat factor and no complete range the nominal priority is returned
    unchanged. *)
Theorem get_priority_modes (config : runtime_config) (plan : plan_config) :
  (params plan !! "priority" = None ->
     _get_priority config plan
     = _get_priority config
         {| params := <[ "priority" := VInt 20 ]> (params plan) |})
  /\ (forall s, priority config = VInt s -> s <> 0 ->
        _get_priority config plan
        = _get_priority {| priority := VInt s; priority_min := VNone;
                           priority_max := VNone |} plan
        /\ forall p, 0 <= p <= 100 -> 1 <= s <= 100 ->
             get_default (params plan) "priority" (VInt 20) = VInt p ->
             _get_priority config plan = Ok (VInt (p * s / 100)))
  /\ (priority config = VNone ->
      priority_min config = VNone \/ priority_max config = VNone ->
      _get_priority config plan
      = Ok (get_default (params plan) "priority" (VInt 20))).
Proof.
  split; [|split].
  - intros Hnone. unfold _get_priority, get_default. cbn [params].
    now rewrite Hnone, lookup_insert_eq.
  - intros s Hcfg Hs. split.
    + unfold _get_priority. cbn [priority]. rewrite Hcfg. cbn [truthy].
      now replace (s =? 0) with false by (symmetry; now apply Z.eqb_neq).
    + intros p Hp Hs' Hnom. now apply flat_mode.
  - intros Hflat Hrange. unfold _get_priority. rewrite Hflat. cbn [truthy].
    destruct Hrange as [-> | ->]; cbn [is_none negb andb]; [|reflexivity].
    now rewrite andb_false_r.
Qed.

Lemma get_priority_modes_witness :
  (_get_priority {| priority := VInt 50; priority_min := VInt 10;
                    priority_max := VInt 30 |} {| params := ∅ |}
   = _get_priority {| priority := VInt 50; priority_min := VInt 10;
                      priority_max := VInt 30 |}
                   {| params := <[ "priority" := VInt 20 ]> ∅ |})
  /\ (_get_priority {| priority := VInt 50; priority_min := VInt 10;
                       priority_max := VInt 30 |} {| params := ∅ |}
      = Ok (VInt (20 * 50 / 100)))
  /\ (_get_priority {| priority := VNone; priority_min := VNone;
                       priority_max := VInt 30 |}
                    {| params := {[ "priority" := VInt 70 ]} |}
      = Ok (VInt 70)).
Proof.
  split; [|split].
  - apply (proj1 (get_priority_modes _ {| params := ∅ |})). reflexivity.
  - apply (proj1 (proj2 (get_priority_modes
                           {| priority := VInt 50; priority_min := VInt 10;
                              priority_max := VInt 30 |}
                           {| params := ∅ |})) 50);
      [reflexivity | lia | lia | lia | reflexivity].
  - etransitivity;
      [apply (proj2 (proj2 (get_priority_modes
                              {| priority := VNone; priority_min := VNone;
                                 priority_max := VInt 30 |}
                              {| params := {[ "priority" := VInt 70 ]} |})));
         [reflexivity | left; reflexivity]
      | reflexivity].
Defined.

(** C6 fails as stated when the flat factor is 0 and a range is
    configured as well: with nominal priority 50, factor 0 and the range
    10..30 the method applies the range and returns 20; the flat factor
    would give [floor(50 * 0 / 100) = 0]. *)
Lemma get_priority_modes_zero_factor :
  let config := {| priority := VInt 0; priority_min := VInt 10;
                   priority_max := VInt 30 |} in
  let plan := {| params := {[ "priority" := VInt 50 ]} |} in
  _get_priority config plan = Ok (VInt 20)
  /\ _get_priority config plan <> Ok (VInt (50 * 0 / 100))
  /\ _get_priority config plan
     <> _get_priority {| priority := VInt 0; priority_min := VNone;
                         priority_max := VNone |} plan.
Proof. repeat split; discriminate. Qed.

(** C9.  A flat scale factor of 0 is not applied: [_get_priority] goes on
    to the range mode when both bounds are configured, and returns the
    nominal priority unchanged otherwise, which differs from
    [floor(p * 0 / 100) = 0] for every nominal priority other than 0. *)
Theorem get_priority_zero_factor (config : runtime_config)
    (plan : plan_config) :
  priority config = VInt 0 ->
  let priority0 := get_default (params plan) "priority" (VInt 20) in
  (is_none (priority_max config) = false ->
   is_none (priority_min config) = false ->
     _get_priority config plan
     = (prio_range ← py_sub (priority_max config) (priority_min config);
        a ← py_mul priority0 prio_range;
        x ← py_truediv a (VInt 100);
        y ← py_add_float x (priority_min config);
        py_int y))
  /\ (is_none (priority_max config) = true
      \/ is_none (priority_min config) = true ->
        _get_priority config plan = Ok priority0
        /\ forall p, priority0 = VInt p -> p <> 0 ->
             _get_priority config plan <> Ok (VInt (p * 0 / 100))).
Proof.
  intros Hzero priority0. unfold _get_priority. fold priority0.
  rewrite Hzero. cbn [truthy Z.eqb negb]. split.
  - intros -> ->. reflexivity.
  - intros Hnone.
    assert (Hif : negb (is_none (priority_max config))
                  && negb (is_none (priority_min config)) = false).
    { destruct Hnone as [-> | ->]; cbn [negb andb]; [reflexivity|].
      apply andb_false_r. }
    rewrite Hif. split; [reflexivity|].
    intros p -> Hp. rewrite Z.mul_0_r. change (0 / 100) with 0.
    intros [= Heq]. lia.
Qed.

Lemma get_priority_zero_factor_witness :
  (_get_priority {| priority := VInt 0; priority_min := VInt 10;
                    priority_max := VInt 30 |}
                 {| params := {[ "priority" := VInt 50 ]} |}
   = Ok (VInt 20))
  /\ (_get_priority {| priority := VInt 0; priority_min := VNone;
                       priority_max := VNone |}
                    {| params := {[ "priority" := VInt 50 ]} |}
      = Ok (VInt 50)).
Proof.
  split.
  - etransitivity.
    + apply (proj1 (get_priority_zero_factor
                      {| priority := VInt 0; priority_min := VInt 10;
                         priority_max := VInt 30 |}
                      {| params := {[ "priority" := VInt 50 ]} |}
                      eq_refl)); reflexivity.
    + reflexivity.
  - etransitivity;
      [apply (proj2 (get_priority_zero_factor
                       {| priority := VInt 0; priority_min := VNone;
                          priority_max := VNone |}
                       {| params := {[ "priority" := VInt 50 ]} |}
                       eq_refl));
         left; reflexivity
      | reflexivity].
Defined.

(** ** Strings *)

Lemma append_nil_l (t : string) : "" +:+ t = t.
Proof. reflexivity. Qed.

Lemma append_cons (c : ascii) (s t : string) :
  String c s +:+ t = String c (s +:+ t).
Proof. reflexivity. Qed.

Lemma append_assoc (s t u : string) : (s +:+ t) +:+ u = s +:+ (t +:+ u).
Proof.
  induction s as [|c s IH]; [reflexivity|].
  now rewrite !append_cons, IH.
Qed.



(** ** The matcher finds exactly the prefixes in the language *)

Lemma run_plus_sound (a : Re.atom) (s w rest : string) :
  In (w, rest) (Re.run_plus a s) -> s = w +:+ rest /\ Re.plus_lang a w.
Proof.
  revert w rest. induction s as [|c s IH]; intros w rest; cbn [Re.run_plus].
  - intros [].
  - destruct (Re.atom_matches a c) eqn:Hc; [|intros []].
    rewrite in_app_iff, in_map_iff. intros [((w' & rest') & [= <- <-] & Hin)|[[= <- <-]|[]]].
    + destruct (IH _ _ Hin) as [-> Hw]. split; [reflexivity|].
      now apply Re.plus_more.
    + split; [reflexivity|]. now apply Re.plus_one.
Qed.





(** ** [CROS_CONFIG_RE] *)

(** The pattern is inside the fragment, and this is what it compiles to:
    the two dots around [flavour] are wildcards, and nothing follows the
    optional fourth group. *)
Lemma CROS_CONFIG_RE_compiled :
  Re.compile CROS_CONFIG_RE_source
  = Some (Re.p_regex CROS_CONFIG_RE, Re.p_groups CROS_CONFIG_RE).
Proof. vm_compute. reflexivity. Qed.







(** ** [_shorten_cros_defconfig] *)

Lemma shorten_cros_defconfig_unmatched (d : string) :
  Re.match_ CROS_CONFIG_RE d = None ->
  _shorten_cros_defconfig d = Raise AttributeError.
Proof. intros Hnone. unfold _shorten_cros_defconfig. now rewrite Hnone. Qed.

(** C2 (as amended).  For
    [defconfig_full = "cros://chromeos-5.15/arm64/chromiumos-arm64.flavour.config+bar"]
    the groups of the match are the kernel version [5.15], the
    architecture [arm64] (the second path segment), the flavour
    [chromiumos-arm64] (the config name) and the fragment [+bar]; the
    flavour table maps [chromiumos-arm64] to [arm64], the fragment becomes
    [bar], and the result is [arm64-arm64-5.15-bar]: the second path
    segment, the short flavour code, the kernel version and the fragment
    joined with [-]. *)
Theorem shorten_cros_defconfig_example :
  let d := "cros://chromeos-5.15/arm64/chromiumos-arm64.flavour.config+bar" in
  option_map Re.groups (Re.match_ CROS_CONFIG_RE d)
  = Some [Some "5.15"; Some "arm64"; Some "chromiumos-arm64"; Some "+bar"]
  /\ CROS_FLAVOURS !! "chromiumos-arm64" = Some "arm64"
  /\ replace "+" "-" (strip "+" "+bar") = "bar"
  /\ _shorten_cros_defconfig d = Ok (join "-" ["arm64"; "arm64"; "5.15"; "bar"])
  /\ join "-" ["arm64"; "arm64"; "5.15"; "bar"] = "arm64-arm64-5.15-bar".
Proof. repeat split; vm_compute; reflexivity. Qed.

(** C2 fails as stated: in
    ["cros://chromeos-5.15/chromiumos-arm64/foo.flavour.config+bar"] the
    second path segment contains [-], which the second group
    [[a-z0-9_]+] does not admit, so the pattern does not match and the
    method raises instead of returning a name. *)
Lemma shorten_cros_defconfig_spec_example :
  let d := "cros://chromeos-5.15/chromiumos-arm64/foo.flavour.config+bar" in
  Re.match_ CROS_CONFIG_RE d = None
  /\ _shorten_cros_defconfig d = Raise AttributeError
  /\ forall arch, _shorten_cros_defconfig d <> Ok (arch +:+ "-arm64-5.15-bar").
Proof.
  cbv zeta. assert (H : Re.match_ CROS_CONFIG_RE
    "cros://chromeos-5.15/chromiumos-arm64/foo.flavour.config+bar" = None)
    by (vm_compute; reflexivity).
  split; [exact H|]. rewrite (shorten_cros_defconfig_unmatched _ H).
  split; [reflexivity|discriminate].
Qed.

(** C10.  The pattern is lax: a string with other characters in place of
    the two dots, and a string with text after the suffix, both start
    with [cros:], do not end in [.flavour.config], and are shortened
    without any error. *)
Theorem shorten_cros_defconfig_lax :
  let d1 := "cros://chromeos-5.15/x86_64/chromeos-intel-pineviewXflavourYconfig" in
  let d2 := "cros://chromeos-5.15/x86_64/chromeos-intel-pineview.flavour.config.bak/old" in
  (startswith d1 "cros:" = true
   /\ endswith d1 ".flavour.config" = false
   /\ contains ".flavour.config" d1 = false
   /\ _shorten_cros_defconfig d1 = Ok "x86_64-pine-5.15-")
  /\ (startswith d2 "cros:" = true
      /\ endswith d2 ".flavour.config" = false
      /\ _shorten_cros_defconfig d2 = Ok "x86_64-pine-5.15-").
Proof. repeat split; vm_compute; reflexivity. Qed.

(** ** [_shorten_cros_name] *)




Lemma getitem_Some (d : dict) (key : string) (v : value) :
  d !! key = Some v -> getitem d key = Ok v.
Proof. intros H. unfold getitem. now rewrite H. Qed.

(** Every short device type code is a non-empty string, so a device
    type that is a key of the table is always replaced by its code. *)
Lemma CROS_DEVICE_TYPES_get (device_type : string) :
  get_or_key CROS_DEVICE_TYPES device_type
  = default device_type (CROS_DEVICE_TYPES !! device_type).
Proof.
  unfold get_or_key.
  destruct (CROS_DEVICE_TYPES !! device_type) as [v|] eqn:Hv; [|reflexivity].
  cbn [default]. unfold CROS_DEVICE_TYPES in Hv. cbn [list_to_map foldr] in Hv.
  rewrite !lookup_insert_Some, lookup_empty in Hv.
  destruct Hv as [[_ <-]|[_ [[_ <-]|[_ [[_ <-]|[_ [=]]]]]]]; reflexivity.
Qed.

Lemma CROS_DEVICE_TYPES_size : size CROS_DEVICE_TYPES = 3%nat.
Proof. vm_compute. reflexivity. Qed.

(** C5.  When [params['defconfig_full']] starts with [cros:], the job
    name is the [-]-join of tree, git_branch, git_describe, arch, the
    shortened defconfig, build_environment, the shortened device type and
    plan, with every [/] replaced by [-]; the shortened device type is the
    entry of the three-entry table [CROS_DEVICE_TYPES] when the device
    type is a key of it, and the device type itself otherwise.  When
    [params['defconfig_full']] does not start with [cros:], the job name
    is [params['name']]. *)
Theorem shorten_cros_name_spec (params : dict) (d : string) :
  params !! "defconfig_full" = Some (VStr d) ->
  (startswith d "cros:" = true ->
   forall tree git_branch git_describe arch defconfig build_environment
          device_type plan,
     params !! "tree" = Some (VStr tree) ->
     params !! "git_branch" = Some (VStr git_branch) ->
     params !! "git_describe" = Some (VStr git_describe) ->
     params !! "arch" = Some (VStr arch) ->
     _shorten_cros_defconfig d = Ok defconfig ->
     params !! "build_environment" = Some (VStr build_environment) ->
     params !! "device_type" = Some (VStr device_type) ->
     params !! "plan" = Some (VStr plan) ->
     let shortened_device_type :=
       default device_type (CROS_DEVICE_TYPES !! device_type) in
     _shorten_cros_name params
     = Ok (VStr (replace "/" "-"
                   (join "-" [tree; git_branch; git_describe; arch;
                              defconfig; build_environment;
                              shortened_device_type; plan])))
     /\ size CROS_DEVICE_TYPES = 3%nat)
  /\ (startswith d "cros:" = false ->
      _shorten_cros_name params = getitem params "name"
      /\ forall name, params !! "name" = Some name ->
           _shorten_cros_name params = Ok name).
Proof.
  intros Hd. pose proof (getitem_Some _ _ _ Hd) as Hg.
  unfold _shorten_cros_name. rewrite Hg, bind_Ok. split.
  - intros -> tree git_branch git_describe arch defconfig build_environment
      device_type plan Ht Hb Hgd Ha Hdc He Hdt Hp.
    rewrite (getitem_Some _ _ _ Ht), (getitem_Some _ _ _ Hb),
      (getitem_Some _ _ _ Hgd), (getitem_Some _ _ _ Ha), Hdc,
      (getitem_Some _ _ _ He), (getitem_Some _ _ _ Hdt),
      (getitem_Some _ _ _ Hp), !bind_Ok.
    cbn [_shorten_cros_device_type]. rewrite CROS_DEVICE_TYPES_get.
    split; [reflexivity|apply CROS_DEVICE_TYPES_size].
  - intros ->. split; [reflexivity|].
    intros name Hn. apply getitem_Some, Hn.
Qed.

Lemma shorten_cros_name_spec_witness :
  let d := "cros://chromeos-5.15/arm64/chromiumos-arm64.flavour.config+bar" in
  let cros : dict :=
    list_to_map [("defconfig_full", VStr d); ("tree", VStr "mainline");
                 ("git_branch", VStr "for/next");
                 ("git_describe", VStr "v6.1"); ("arch", VStr "arm64");
                 ("build_environment", VStr "gcc-10");
                 ("device_type", VStr "qemu_x86_64-uefi-chromeos");
                 ("plan", VStr "boot"); ("name", VStr "long-name")] in
  let plain : dict :=
    list_to_map [("defconfig_full", VStr "defconfig");
                 ("name", VStr "long-name")] in
  _shorten_cros_name cros
  = Ok (VStr "mainline-for-next-v6.1-arm64-arm64-arm64-5.15-bar-gcc-10-qemu-x86-boot")
  /\ _shorten_cros_name plain = Ok (VStr "long-name").
Proof.
  intros d cros plain. split.
  - etransitivity;
      [apply (proj1 (shorten_cros_name_spec cros d eq_refl) eq_refl
                "mainline" "for/next" "v6.1" "arm64" "arm64-arm64-5.15-bar"
                "gcc-10" "qemu_x86_64-uefi-chromeos" "boot");
         reflexivity
      | reflexivity].
  - apply (proj2 (shorten_cros_name_spec plain "defconfig" eq_refl) eq_refl).
    reflexivity.
Defined.

(** ** [job_file_name] *)

Lemma job_file_name_str (params : dict) (X : string) :
  params !! "name" = Some (VStr X) ->
  job_file_name params = Ok (X +:+ ".yaml").
Proof.
  intros Hn. unfold job_file_name. rewrite (getitem_Some _ _ _ Hn), bind_Ok.
  unfold py_join. cbn [values_str value_str]. rewrite !bind_Ok.
  reflexivity.
Qed.

(** C8.  For a params mapping whose [name] entry is a non-empty string
    [X] without path separators, [job_file_name] returns [X + ".yaml"];
    the result depends on [params['name']] only. *)
Theorem job_file_name_spec (params : dict) (X : string) :
  params !! "name" = Some (VStr X) ->
  X <> "" ->
  contains "/" X = false ->
  job_file_name params = Ok (X +:+ ".yaml")
  /\ forall params' : dict,
       params' !! "name" = params !! "name" ->
       job_file_name params' = job_file_name params.
Proof.
  intros Hn _ _. split; [now apply job_file_name_str|].
  intros params' Hsame. rewrite Hn in Hsame.
  now rewrite (job_file_name_str _ _ Hsame), (job_file_name_str _ _ Hn).
Qed.

Lemma job_file_name_spec_witness :
  job_file_name {[ "name" := VStr "baseline-qemu" ]}
  = Ok ("baseline-qemu" +:+ ".yaml")
  /\ forall params' : dict,
       params' !! "name" = ({[ "name" := VStr "baseline-qemu" ]} : dict) !! "name" ->
       job_file_name params' = job_file_name {[ "name" := VStr "baseline-qemu" ]}.
Proof.
  apply job_file_name_spec; [reflexivity | discriminate | reflexivity].
Defined.

(** ** [_add_callback_params] *)

Lemma value_eqb_eq (v w : value) : value_eqb v w = true <-> v = w.
Proof.
  destruct v as [|a|s], w as [|b|t]; cbn [value_eqb];
    try (split; [discriminate|intros [=]]); try easy.
  - rewrite Z.eqb_eq. split; [now intros ->|now intros [= ->]].
  - rewrite String.eqb_eq. split; [now intros ->|now intros [= ->]].
Qed.



(** * Further properties *)

(** ** [_get_priority]: order, ends of the range, no clamping, types *)

(** The flat mode for any factor other than 0, as long as the product
    stays below [2^40]. *)
Lemma flat_mode_wide (config : runtime_config) (plan : plan_config) (p s : Z) :
  s <> 0 -> 0 <= p * s < 2 ^ 40 ->
  priority config = VInt s ->
  get_default (params plan) "priority" (VInt 20) = VInt p ->
  _get_priority config plan = Ok (VInt (p * s / 100)).
Proof.
  intros Hs Hps Hcfg Hnom. unfold _get_priority. rewrite Hcfg, Hnom.
  cbn [truthy py_mul].
  replace (s =? 0) with false by (symmetry; apply Z.eqb_neq; lia).
  cbn [negb]. rewrite bind_Ok. cbn [py_truediv].
  destruct (int_truediv_100 (p * s)) as (x & Hx & Hint & _); [easy|].
  rewrite Hx, bind_Ok. unfold py_int. now rewrite Hint.
Qed.

(** X14.  Scaling keeps the order of the nominal priorities: under a
    flat factor in [1, 2^31), under a range [0 <= min <= max < 2^31], and
    without scaling, a plan whose nominal priority (in 0..100) is not
    below that of another plan does not get a lower effective priority
    than it. *)
Theorem get_priority_monotone (config : runtime_config)
    (plan plan' : plan_config) (p p' : Z) :
  get_default (params plan) "priority" (VInt 20) = VInt p ->
  get_default (params plan') "priority" (VInt 20) = VInt p' ->
  0 <= p <= p' -> p' <= 100 ->
  (exists s, priority config = VInt s /\ 1 <= s < 2 ^ 31)
  \/ (truthy (priority config) = false
      /\ exists pmin pmax,
           priority_min config = VInt pmin /\ priority_max config = VInt pmax
           /\ 0 <= pmin <= pmax /\ pmax < 2 ^ 31)
  \/ (truthy (priority config) = false
      /\ (priority_min config = VNone \/ priority_max config = VNone)) ->
  exists e e',
    _get_priority config plan = Ok (VInt e)
    /\ _get_priority config plan' = Ok (VInt e')
    /\ e <= e'.
Proof.
  intros Hp Hp' Hle Hle'
    [(s & Hs & Hbs)
    |[(Hf & pmin & pmax & Hmin & Hmax & Hb & Hb')|(Hf & Hnone)]].
  - change (2 ^ 31) with 2147483648 in Hbs.
    exists (p * s / 100), (p' * s / 100). split; [|split].
    + apply flat_mode_wide; try easy; [lia|].
      change (2 ^ 40) with 1099511627776. nia.
    + apply flat_mode_wide; try easy; [lia|].
      change (2 ^ 40) with 1099511627776. nia.
    + apply Z.div_le_mono; nia.
  - exists (p * (pmax - pmin) / 100 + pmin),
      (p' * (pmax - pmin) / 100 + pmin).
    split; [|split].
    + apply range_mode; try easy; lia.
    + apply range_mode; try easy; lia.
    + apply Z.add_le_mono_r, Z.div_le_mono; nia.
  - exists p, p'. unfold _get_priority. rewrite Hf, Hp, Hp'.
    destruct Hnone as [-> | ->]; cbn [is_none negb andb];
      rewrite ?andb_false_r; repeat split; lia.
Qed.

Lemma get_priority_monotone_witness :
  exists e e',
    _get_priority {| priority := VNone; priority_min := VInt 10;
                     priority_max := VInt 30 |}
                  {| params := {[ "priority" := VInt 20 ]} |}
    = Ok (VInt e)
    /\ _get_priority {| priority := VNone; priority_min := VInt 10;
                        priority_max := VInt 30 |}
                     {| params := {[ "priority" := VInt 70 ]} |}
       = Ok (VInt e')
    /\ e <= e'.
Proof.
  apply (get_priority_monotone _ _ _ 20 70);
    [reflexivity | reflexivity | lia | lia |].
  right. left. split; [reflexivity|]. exists 10, 30.
  repeat split; (reflexivity || lia).
Defined.

(** X15.  In range mode with [0 <= min <= max < 2^31] the ends of the
    nominal scale go to the ends of the range: the nominal priority 0
    gives [priority_min] and the nominal priority 100 gives
    [priority_max]. *)
Theorem get_priority_range_ends (config : runtime_config)
    (plan : plan_config) (pmin pmax : Z) :
  truthy (priority config) = false ->
  priority_min config = VInt pmin ->
  priority_max config = VInt pmax ->
  0 <= pmin <= pmax -> pmax < 2 ^ 31 ->
  (get_default (params plan) "priority" (VInt 20) = VInt 0 ->
   _get_priority config plan = Ok (VInt pmin))
  /\ (get_default (params plan) "priority" (VInt 20) = VInt 100 ->
      _get_priority config plan = Ok (VInt pmax)).
Proof.
  intros Hf Hmin Hmax Hb Hb'. split; intros Hnom.
  - rewrite (range_mode config plan 0 pmin pmax) by (easy || lia).
    do 2 f_equal.
  - rewrite (range_mode config plan 100 pmin pmax) by (easy || lia).
    do 2 f_equal. rewrite Z.mul_comm, Z.div_mul by lia. lia.
Qed.

Lemma get_priority_range_ends_witness :
  _get_priority {| priority := VNone; priority_min := VInt 45;
                   priority_max := VInt 55 |}
                {| params := {[ "priority" := VInt 0 ]} |}
  = Ok (VInt 45)
  /\ _get_priority {| priority := VNone; priority_min := VInt 45;
                      priority_max := VInt 55 |}
                   {| params := {[ "priority" := VInt 100 ]} |}
     = Ok (VInt 55).
Proof.
  split.
  - apply (proj1 (get_priority_range_ends
                    {| priority := VNone; priority_min := VInt 45;
                       priority_max := VInt 55 |}
                    {| params := {[ "priority" := VInt 0 ]} |} 45 55
                    eq_refl eq_refl eq_refl ltac:(lia) eq_refl)).
    reflexivity.
  - apply (proj2 (get_priority_range_ends
                    {| priority := VNone; priority_min := VInt 45;
                       priority_max := VInt 55 |}
                    {| params := {[ "priority" := VInt 100 ]} |} 45 55
                    eq_refl eq_refl eq_refl ltac:(lia) eq_refl)).
    reflexivity.
Defined.

(** X16.  Nothing clamps the flat mode to 0..100: for every factor
    [s >= 1] and nominal priority [p >= 0] with [p * s < 2^40] the result
    is [floor(p * s / 100)], so that the nominal priority 100 gives the
    factor itself, also when the factor is above 100. *)
Theorem get_priority_flat_unclamped (config : runtime_config)
    (plan : plan_config) (p s : Z) :
  priority config = VInt s ->
  get_default (params plan) "priority" (VInt 20) = VInt p ->
  0 <= p -> 1 <= s -> p * s < 2 ^ 40 ->
  _get_priority config plan = Ok (VInt (p * s / 100))
  /\ (p = 100 -> _get_priority config plan = Ok (VInt s)).
Proof.
  intros Hs Hp Hp0 Hs1 Hps.
  assert (H : _get_priority config plan = Ok (VInt (p * s / 100))).
  { apply flat_mode_wide; try easy; [lia|]. split; [nia|easy]. }
  split; [exact H|]. intros ->. rewrite H. do 2 f_equal.
  rewrite Z.mul_comm. apply Z.div_mul. lia.
Qed.

Lemma get_priority_flat_unclamped_witness :
  _get_priority {| priority := VInt 250; priority_min := VNone;
                   priority_max := VNone |}
                {| params := {[ "priority" := VInt 100 ]} |}
  = Ok (VInt 250).
Proof.
  apply (get_priority_flat_unclamped _ _ 100 250);
    reflexivity || lia.
Defined.

(** X17.  A nominal priority that is text or [None] is a [TypeError]
    under either scaling mode (flat factor in 1..100, or a range
    [0 <= min <= max <= 100]): the product with the factor is text again
    (or fails), and text cannot be divided by 100. *)
Theorem get_priority_text (config : runtime_config) (plan : plan_config) :
  (exists t, params plan !! "priority" = Some (VStr t))
  \/ params plan !! "priority" = Some VNone ->
  (exists s, priority config = VInt s /\ 1 <= s <= 100)
  \/ (truthy (priority config) = false
      /\ exists pmin pmax,
           priority_min config = VInt pmin
           /\ priority_max config = VInt pmax
           /\ 0 <= pmin <= pmax /\ pmax <= 100) ->
  _get_priority config plan = Raise TypeError.
Proof.
  intros Hplan Hcfg. unfold _get_priority, get_default.
  destruct Hcfg as [(s & -> & Hs)|(-> & pmin & pmax & -> & -> & _)].
  - cbn [truthy].
    replace (s =? 0) with false by (symmetry; apply Z.eqb_neq; lia).
    cbn [negb]. destruct Hplan as [(t & ->)| ->]; reflexivity.
  - cbn [is_none negb andb py_sub]. rewrite bind_Ok.
    destruct Hplan as [(t & ->)| ->]; reflexivity.
Qed.

Lemma get_priority_text_witness :
  _get_priority {| priority := VInt 50; priority_min := VNone;
                   priority_max := VNone |}
                {| params := {[ "priority" := VStr "high" ]} |}
  = Raise TypeError.
Proof.
  apply get_priority_text.
  - left. exists "high". reflexivity.
  - left. exists 50. split; [reflexivity|lia].
Defined.

(** ** [_shorten_cros_defconfig]: the groups the matcher settles on *)

Lemma append_nil_r (s : string) : s +:+ "" = s.
Proof.
  induction s as [|c s IH]; [reflexivity|]. now rewrite append_cons, IH.
Qed.

(** The ways to match [a+] at the start of [w ++ s], when [a] matches
    all of [w]: first those that go beyond [w], then [w], then the
    shorter ones. *)
Lemma run_plus_all (a : Re.atom) (w s : string) :
  w <> "" -> all_match a w = true ->
  exists shorter,
    Re.run_plus a (w +:+ s)
    = (map (fun ur => (w +:+ fst ur, snd ur)) (Re.run_plus a s)
       ++ (w, s) :: shorter)%list.
Proof.
  induction w as [|c w IH]; [easy|]. intros _ Hall.
  cbn [all_match] in Hall. apply andb_true_iff in Hall as [Hc Hw].
  rewrite append_cons. cbn [Re.run_plus]. rewrite Hc.
  destruct w as [|c' w'].
  - rewrite append_nil_l. exists []. reflexivity.
  - destruct IH as (shorter & ->); [easy|exact Hw|].
    exists (map (fun wr => (String c (fst wr), snd wr)) shorter
            ++ [(String c "", String c' w' +:+ s)])%list.
    rewrite !map_app, map_map. cbn [map fst snd].
    rewrite <- !app_assoc. reflexivity.
Qed.

Lemma match_first_caps (p : Re.pattern) (s : string) :
  Re.match_ p s
  = option_map (fun caps => {| Re.m_groups := Re.p_groups p;
                               Re.m_captures := caps |})
      (first_caps (Re.p_regex p) s).
Proof.
  unfold Re.match_, first_caps.
  now destruct (Re.run (Re.p_regex p) s) as [|[[? ?] ?] ?].
Qed.

Lemma first_caps_lits (t : string) (k : Re.regex) (s : string) :
  first_caps (Re.lits t k) (t +:+ s) = first_caps k s.
Proof.
  induction t as [|c t IH]; [reflexivity|].
  rewrite append_cons. cbn [Re.lits]. rewrite <- IH.
  unfold first_caps. cbn [Re.run Re.atom_matches]. rewrite Ascii.eqb_refl.
  cbn [flat_map]. rewrite app_nil_r.
  destruct (Re.run (Re.lits t k) (t +:+ s)) as [|[[? ?] ?] ?];
    [reflexivity|].
  cbn [map]. now rewrite app_nil_r.
Qed.

Lemma first_caps_any (c : ascii) (k : Re.regex) (s : string) :
  c <> Re.newline ->
  first_caps (Re.Cat (Re.Chr Re.Any) k) (String c s) = first_caps k s.
Proof.
  intros Hc. unfold first_caps. cbn [Re.run Re.atom_matches].
  apply Ascii.eqb_neq in Hc. rewrite Hc. cbn [negb flat_map].
  rewrite app_nil_r.
  destruct (Re.run k s) as [|[[? ?] ?] ?]; [reflexivity|].
  cbn [map]. now rewrite app_nil_r.
Qed.

Lemma flat_map_nil {A B : Type} (f : A -> list B) (l : list A) :
  (forall x, In x l -> f x = []) -> flat_map f l = [].
Proof.
  induction l as [|x l IH]; [reflexivity|]. intros H. cbn [flat_map].
  rewrite (H x) by now left. apply IH. intros y Hy. apply H. now right.
Qed.

(** A group [(a+)] followed by [k]: the matcher settles on the text [w]
    for the group when [k] matches what follows [w] and does not match
    after any longer text. *)
Lemma first_caps_group (n : nat) (a : Re.atom) (k : Re.regex)
    (w s : string) (caps : Re.captures) :
  w <> "" -> all_match a w = true ->
  (forall u rest, In (u, rest) (Re.run_plus a s) -> Re.run k rest = []) ->
  first_caps k s = Some caps ->
  first_caps (Re.Cat (Re.Group n (Re.Cat (Re.Plus a) Re.Eps)) k) (w +:+ s)
  = Some (caps ++ [(n, w)])%list.
Proof.
  intros Hne Hall Hlonger Hk.
  destruct (run_plus_all a w s Hne Hall) as (shorter & Hrun).
  unfold first_caps in *. cbn [Re.run]. rewrite Hrun.
  rewrite !map_app, !flat_map_app. cbn [map flat_map fst snd].
  rewrite !map_app, !flat_map_app. cbn [map flat_map fst snd].
  rewrite flat_map_nil.
  - cbn [app]. rewrite append_nil_r.
    destruct (Re.run k s) as [|[[w2 caps2] rest2] l]; [discriminate|].
    injection Hk as ->. reflexivity.
  - intros [[w1 caps1] rest1] Hin.
    apply in_map_iff in Hin as ([[w0 caps0] rest0] & [= <- <- <-] & Hin).
    apply in_flat_map in Hin as ([[w' caps'] rest'] & Hin & Hin').
    rewrite map_map in Hin.
    apply in_map_iff in Hin as ([u rest] & [= <- <- <-] & Hu).
    cbn [map fst snd app] in Hin'. destruct Hin' as [[= <- <- <-]|[]].
    now rewrite (Hlonger _ _ Hu).
Qed.

Lemma run_lits_mismatch (t : string) (k : Re.regex) (s : string) :
  String.prefix t s = false -> Re.run (Re.lits t k) s = [].
Proof.
  revert s. induction t as [|c t IH]; intros s Hp.
  - now destruct s.
  - destruct s as [|c' s]; [reflexivity|].
    cbn [String.prefix] in Hp. cbn [Re.lits Re.run Re.atom_matches].
    destruct (ascii_dec c c') as [->|Hne].
    + rewrite Ascii.eqb_refl. cbn [flat_map]. now rewrite (IH _ Hp).
    + replace (Ascii.eqb c' c) with false; [reflexivity|].
      symmetry. apply Ascii.eqb_neq. congruence.
Qed.

Lemma run_chr_nil (a : Re.atom) (k : Re.regex) (c : ascii) (s : string) :
  Re.run k s = [] -> Re.run (Re.Cat (Re.Chr a) k) (String c s) = [].
Proof.
  intros Hk. cbn [Re.run].
  destruct (Re.atom_matches a c); [|reflexivity].
  cbn [flat_map]. now rewrite Hk.
Qed.

(** The optional last group [(\+a+)?] at the end of the pattern takes
    the whole of a fragment [+f] whose characters [a] matches. *)
Lemma first_caps_fragment (n : nat) (a : Re.atom) (f : string) :
  f <> "" -> all_match a f = true ->
  first_caps
    (Re.Cat (Re.Opt (Re.Group n (Re.lits "+" (Re.Cat (Re.Plus a) Re.Eps))))
       Re.Eps)
    ("+" +:+ f)
  = Some [(n, "+" +:+ f)].
Proof.
  intros Hne Hall. destruct (run_plus_all a f "" Hne Hall) as (shorter & Hrun).
  rewrite append_nil_r in Hrun. cbn [Re.run_plus map app] in Hrun.
  unfold first_caps. rewrite append_cons, append_nil_l.
  cbn [Re.lits Re.run Re.atom_matches]. rewrite Ascii.eqb_refl.
  cbn [flat_map app]. rewrite app_nil_r, Hrun.
  cbn [map flat_map app fst snd]. now rewrite !append_nil_r.
Qed.

Lemma CROS_FLAVOURS_get (flav : string) :
  get_or_key CROS_FLAVOURS flav = default flav (CROS_FLAVOURS !! flav).
Proof.
  unfold get_or_key.
  destruct (CROS_FLAVOURS !! flav) as [v|] eqn:Hv; [|reflexivity].
  cbn [default]. unfold CROS_FLAVOURS in Hv. cbn [list_to_map foldr] in Hv.
  rewrite !lookup_insert_Some, lookup_empty in Hv.
  repeat (destruct Hv as [[_ <-]|[_ Hv]]; [reflexivity|]).
  discriminate Hv.
Qed.

Lemma CROS_CONFIG_RE_classes :
  let grp n a := Re.Group n (Re.Cat (Re.Plus a) Re.Eps) in
  Re.p_regex CROS_CONFIG_RE
  = Re.lits "cros://chromeos-"
      (Re.Cat (grp 1%nat kver_chars)
      (Re.lits "/"
      (Re.Cat (grp 2%nat arch_chars)
      (Re.lits "/"
      (Re.Cat (grp 3%nat flav_chars)
      (Re.Cat (Re.Chr Re.Any)
      (Re.lits "flavour"
      (Re.Cat (Re.Chr Re.Any)
      (Re.lits "config"
      (Re.Cat
         (Re.Opt
            (Re.Group 4
               (Re.lits "+" (Re.Cat (Re.Plus frag_chars) Re.Eps))))
         Re.Eps)))))))))).
Proof. reflexivity. Qed.

(** What follows the flavour: the wildcard, [flavour], the wildcard,
    [config] and the optional fragment. *)
Lemma first_caps_suffix (frag : string) (k : Re.regex) :
  first_caps
    (Re.Cat (Re.Chr Re.Any)
       (Re.lits "flavour" (Re.Cat (Re.Chr Re.Any) (Re.lits "config" k))))
    (".flavour.config" +:+ frag)
  = first_caps k frag.
Proof.
  change (".flavour.config" +:+ frag)
    with (String "." ("flavour" +:+ String "." ("config" +:+ frag))).
  rewrite first_caps_any by discriminate. rewrite first_caps_lits.
  rewrite first_caps_any by discriminate. now rewrite first_caps_lits.
Qed.

(** After a flavour, the matcher cannot end the third group later than
    at the text [.flavour.config]. *)
Lemma no_longer_flavour (frag : string) (k : Re.regex) (u rest : string) :
  frag = ""
  \/ (exists f, frag = "+" +:+ f /\ String.prefix "flavour" f = false) ->
  In (u, rest) (Re.run_plus flav_chars (".flavour.config" +:+ frag)) ->
  Re.run
    (Re.Cat (Re.Chr Re.Any)
       (Re.lits "flavour" (Re.Cat (Re.Chr Re.Any) (Re.lits "config" k))))
    rest
  = [].
Proof.
  intros [->|(f & -> & Hf)] Hin.
  - vm_compute in Hin.
    repeat (destruct Hin as [[= <- <-]|Hin]; [reflexivity|]).
    destruct Hin.
  - vm_compute in Hin.
    destruct Hin as [[= <- <-]|Hin].
    + apply run_chr_nil, run_lits_mismatch, Hf.
    + repeat (destruct Hin as [[= <- <-]|Hin]; [reflexivity|]).
      destruct Hin.
Qed.

Lemma run_plus_stop (a : Re.atom) (c : ascii) (s : string) :
  Re.atom_matches a c = false -> Re.run_plus a (String c s) = [].
Proof. intros H. cbn [Re.run_plus]. now rewrite H. Qed.

(** The groups the matcher settles on for a well-formed name. *)
Lemma CROS_CONFIG_RE_first (kver arch flav frag : string) :
  kver <> "" -> all_match kver_chars kver = true ->
  arch <> "" -> all_match arch_chars arch = true ->
  flav <> "" -> all_match flav_chars flav = true ->
  frag = ""
  \/ (exists f, frag = "+" +:+ f /\ f <> ""
                /\ all_match frag_chars f = true
                /\ startswith f "flavour" = false) ->
  first_caps (Re.p_regex CROS_CONFIG_RE)
    ("cros://chromeos-" +:+ kver +:+ "/" +:+ arch +:+ "/" +:+ flav
     +:+ ".flavour.config" +:+ frag)
  = Some ((((if String.eqb frag "" then [] else [(4%nat, frag)])
            ++ [(3%nat, flav)]) ++ [(2%nat, arch)]) ++ [(1%nat, kver)])%list.
Proof.
  intros Hk Hka Ha Haa Hf Hfa Hfrag.
  rewrite CROS_CONFIG_RE_classes. cbv zeta.
  rewrite first_caps_lits.
  apply first_caps_group; [exact Hk|exact Hka| |].
  { intros u rest Hin. rewrite append_cons, run_plus_stop in Hin by reflexivity.
    destruct Hin. }
  rewrite first_caps_lits.
  apply first_caps_group; [exact Ha|exact Haa| |].
  { intros u rest Hin. rewrite append_cons, run_plus_stop in Hin by reflexivity.
    destruct Hin. }
  rewrite first_caps_lits.
  apply first_caps_group; [exact Hf|exact Hfa| |].
  { intros u rest. apply no_longer_flavour.
    destruct Hfrag as [->|(f & -> & _ & _ & Hp)]; [now left|right].
    now exists f. }
  rewrite first_caps_suffix.
  destruct Hfrag as [->|(f & -> & Hne & Hall & _)]; [reflexivity|].
  now rewrite first_caps_fragment.
Qed.

(** X6.  A well-formed name is shortened as documented.  For a kernel
    version over [[0-9.]], an architecture over [[a-z0-9_]] and a flavour
    over [[a-z0-9-._]], all non-empty, and a fragment that is empty or
    [+f] with [f] non-empty over [[a-z0-9-+]] and not starting with
    [flavour], the text
    [cros://chromeos-<kver>/<arch>/<flav>.flavour.config<frag>]
    gives [<arch>-<flavour code>-<kver>-<fragment>]: the flavour code is
    the entry of [CROS_FLAVOURS], or the flavour itself when it has none,
    and the fragment has the [+] at its ends removed and the others
    replaced by [-].  (A fragment [+flavour...] is left out because the
    third group, which takes as much as it can, may then run up to
    it.) *)
Theorem shorten_cros_defconfig_wellformed (kver arch flav frag : string) :
  kver <> "" -> all_match kver_chars kver = true ->
  arch <> "" -> all_match arch_chars arch = true ->
  flav <> "" -> all_match flav_chars flav = true ->
  frag = ""
  \/ (exists f, frag = "+" +:+ f /\ f <> ""
                /\ all_match frag_chars f = true
                /\ startswith f "flavour" = false) ->
  _shorten_cros_defconfig
    ("cros://chromeos-" +:+ kver +:+ "/" +:+ arch +:+ "/" +:+ flav
     +:+ ".flavour.config" +:+ frag)
  = Ok (join "-" [arch; default flav (CROS_FLAVOURS !! flav); kver;
                  replace "+" "-" (strip "+" frag)]).
Proof.
  intros Hk Hka Ha Haa Hf Hfa Hfrag.
  unfold _shorten_cros_defconfig.
  rewrite match_first_caps, CROS_CONFIG_RE_first by assumption.
  rewrite <- CROS_FLAVOURS_get.
  destruct Hfrag as [->|(f & -> & _)]; reflexivity.
Qed.
Lemma shorten_cros_defconfig_wellformed_witness :
  _shorten_cros_defconfig
    ("cros://chromeos-" +:+ "6.1" +:+ "/" +:+ "x86_64" +:+ "/"
     +:+ "chromeos-intel-pineview" +:+ ".flavour.config"
     +:+ "+x86-chromebook+debug")
  = Ok (join "-" ["x86_64";
                  default "chromeos-intel-pineview"
                    (CROS_FLAVOURS !! "chromeos-intel-pineview");
                  "6.1";
                  replace "+" "-" (strip "+" "+x86-chromebook+debug")]).
Proof.
  apply shorten_cros_defconfig_wellformed;
    try discriminate; try reflexivity.
  right. exists "x86-chromebook+debug".
  repeat split; try discriminate; reflexivity.
Defined.


(** *** Every way to match, with its groups *)

Lemma run_captured (r : Re.regex) :
  forall s w caps rest,
    In (w, caps, rest) (Re.run r s) -> s = w +:+ rest /\ captured r w caps.
Proof.
  induction r as [|a|a|r IH|n r IH|r1 IH1 r2 IH2]; intros s w caps rest;
    cbn [Re.run].
  - intros [[= <- <- <-]|[]]. split; [reflexivity|constructor].
  - destruct s as [|c s]; [intros []|].
    destruct (Re.atom_matches a c) eqn:Hc; [|intros []].
    intros [[= <- <- <-]|[]]. split; [reflexivity|now constructor].
  - rewrite in_map_iff. intros ((w' & rest') & [= <- <- <-] & Hin).
    destruct (run_plus_sound _ _ _ _ Hin) as [-> Hw].
    split; [reflexivity|now constructor].
  - rewrite in_app_iff. intros [Hin|[[= <- <- <-]|[]]].
    + destruct (IH _ _ _ _ Hin) as [-> Hw]. split; [reflexivity|].
      now apply cap_opt_some.
    + split; [reflexivity|apply cap_opt_none].
  - rewrite in_map_iff. intros (((w' & caps') & rest') & [= <- <- <-] & Hin).
    destruct (IH _ _ _ _ Hin) as [-> Hw]. split; [reflexivity|now constructor].
  - rewrite in_flat_map. intros (((w1 & caps1) & rest1) & Hin1 & Hin2).
    rewrite in_map_iff in Hin2.
    destruct Hin2 as (((w2 & caps2) & rest2) & [= <- <- <-] & Hin2).
    destruct (IH1 _ _ _ _ Hin1) as [-> Hw1].
    destruct (IH2 _ _ _ _ Hin2) as [-> Hw2].
    split; [now rewrite append_assoc|now constructor].
Qed.

Lemma plus_lang_all (a : Re.atom) (w : string) :
  Re.plus_lang a w -> w <> "" /\ all_match a w = true.
Proof.
  induction 1 as [c Hc|c w Hc Hw [_ IH]]; (split; [easy|]);
    cbn [all_match]; rewrite Hc; [reflexivity|exact IH].
Qed.

Lemma captured_lits (t : string) (k : Re.regex) (w : string)
    (caps : Re.captures) :
  captured (Re.lits t k) w caps ->
  exists w', w = t +:+ w' /\ captured k w' caps.
Proof.
  revert w caps. induction t as [|c t IH]; intros w caps Hw;
    cbn [Re.lits] in Hw.
  - now exists w.
  - inversion Hw as [| | | | | |r1 r2 w1 w2 caps1 caps2 H1 H2]; subst.
    inversion H1 as [|a c' Hc| | | | |]; subst.
    cbn [Re.atom_matches] in Hc. apply Ascii.eqb_eq in Hc as ->.
    rewrite app_nil_r in *.
    destruct (IH _ _ H2) as (w' & -> & Hk). now exists w'.
Qed.

Lemma captured_any (k : Re.regex) (w : string) (caps : Re.captures) :
  captured (Re.Cat (Re.Chr Re.Any) k) w caps ->
  exists c w', w = String c w' /\ c <> Re.newline /\ captured k w' caps.
Proof.
  intros Hw.
  inversion Hw as [| | | | | |r1 r2 w1 w2 caps1 caps2 H1 H2]; subst.
  inversion H1 as [|a c Hc| | | | |]; subst.
  cbn [Re.atom_matches] in Hc. apply negb_true_iff, Ascii.eqb_neq in Hc.
  rewrite app_nil_r. now exists c, w2.
Qed.

Lemma captured_group (n : nat) (a : Re.atom) (k : Re.regex) (w : string)
    (caps : Re.captures) :
  captured (Re.Cat (Re.Group n (Re.Cat (Re.Plus a) Re.Eps)) k) w caps ->
  exists g w' caps',
    w = g +:+ w' /\ g <> "" /\ all_match a g = true
    /\ captured k w' caps' /\ caps = (caps' ++ [(n, g)])%list.
Proof.
  intros Hw.
  inversion Hw as [| | | | | |r1 r2 w1 w2 caps1 caps2 H1 H2]; subst.
  inversion H1 as [| | | | |n' r' w' caps' Hg|]; subst.
  inversion Hg as [| | | | | |r1 r2 g e capsg capse Hp He]; subst.
  inversion Hp as [| |a' g' Hpl| | | |]; subst.
  inversion He; subst.
  rewrite append_nil_r. cbn [app].
  destruct (plus_lang_all _ _ Hpl) as [Hne Hall].
  now exists g, w2, caps2.
Qed.

Lemma captured_fragment (n : nat) (a : Re.atom) (w : string)
    (caps : Re.captures) :
  captured
    (Re.Cat (Re.Opt (Re.Group n (Re.lits "+" (Re.Cat (Re.Plus a) Re.Eps))))
       Re.Eps) w caps ->
  (w = "" /\ caps = [])
  \/ (exists f, w = "+" +:+ f /\ f <> "" /\ all_match a f = true
                /\ caps = [(n, w)]).
Proof.
  intros Hw.
  inversion Hw as [| | | | | |r1 r2 w1 w2 caps1 caps2 H1 H2]; subst.
  inversion H2; subst. rewrite append_nil_r. cbn [app].
  inversion H1 as [| | |r|r w caps Hg| |]; subst; [now left|right].
  inversion Hg as [| | | | |n' r' w' caps' Hl|]; subst.
  apply (captured_lits "+") in Hl as (f & -> & Hf).
  inversion Hf as [| | | | | |r1 r2 g e capsg capse Hp He]; subst.
  inversion Hp as [| |a' g' Hpl| | | |]; subst.
  inversion He; subst. rewrite append_nil_r in *. cbn [app].
  destruct (plus_lang_all _ _ Hpl) as [Hne Hall].
  now exists g.
Qed.

(** Whatever way the pattern matches, its groups are the parts of the
    text between the fixed pieces. *)
Lemma CROS_CONFIG_RE_captured (w : string) (caps : Re.captures) :
  captured (Re.p_regex CROS_CONFIG_RE) w caps ->
  exists kver arch flav c1 c2 frag,
    w = "cros://chromeos-" +:+ kver +:+ "/" +:+ arch +:+ "/" +:+ flav
        +:+ String c1 ("flavour" +:+ String c2 ("config" +:+ frag))
    /\ (kver <> "" /\ all_match kver_chars kver = true)
    /\ (arch <> "" /\ all_match arch_chars arch = true)
    /\ (flav <> "" /\ all_match flav_chars flav = true)
    /\ (c1 <> Re.newline /\ c2 <> Re.newline)
    /\ (frag = ""
        \/ exists f, frag = "+" +:+ f /\ f <> ""
                     /\ all_match frag_chars f = true)
    /\ caps = ((((if String.eqb frag "" then [] else [(4%nat, frag)])
                 ++ [(3%nat, flav)]) ++ [(2%nat, arch)])
               ++ [(1%nat, kver)])%list.
Proof.
  rewrite CROS_CONFIG_RE_classes. cbv zeta. intros Hw.
  apply captured_lits in Hw as (w0 & -> & Hw).
  apply captured_group in Hw as (kver & w1 & caps1 & -> & Hk & Hka & Hw & ->).
  apply captured_lits in Hw as (w2 & -> & Hw).
  apply captured_group in Hw as (arch & w3 & caps3 & -> & Ha & Haa & Hw & ->).
  apply captured_lits in Hw as (w4 & -> & Hw).
  apply captured_group in Hw as (flav & w5 & caps5 & -> & Hf & Hfa & Hw & ->).
  apply captured_any in Hw as (c1 & w6 & -> & Hc1 & Hw).
  apply captured_lits in Hw as (w7 & -> & Hw).
  apply captured_any in Hw as (c2 & w8 & -> & Hc2 & Hw).
  apply captured_lits in Hw as (frag & -> & Hw).
  exists kver, arch, flav, c1, c2, frag.
  split; [reflexivity|]. do 4 (split; [easy|]).
  apply captured_fragment in Hw as [[-> ->]|(f & -> & Hne & Hall & ->)].
  - split; [now left|reflexivity].
  - split; [right; now exists f|reflexivity].
Qed.

(** When the pattern matches, the text starts in the expected way and
    the method returns the four parts, rearranged. *)
Lemma shorten_cros_defconfig_matched (d : string) (m : Re.match_object) :
  Re.match_ CROS_CONFIG_RE d = Some m ->
  exists kver arch flav c1 c2 frag rest,
    d = "cros://chromeos-" +:+ kver +:+ "/" +:+ arch +:+ "/" +:+ flav
        +:+ String c1 ("flavour" +:+ String c2 ("config" +:+ frag +:+ rest))
    /\ (kver <> "" /\ all_match kver_chars kver = true)
    /\ (arch <> "" /\ all_match arch_chars arch = true)
    /\ (flav <> "" /\ all_match flav_chars flav = true)
    /\ (c1 <> Re.newline /\ c2 <> Re.newline)
    /\ (frag = ""
        \/ exists f, frag = "+" +:+ f /\ f <> ""
                     /\ all_match frag_chars f = true)
    /\ _shorten_cros_defconfig d
       = Ok (join "-" [arch; default flav (CROS_FLAVOURS !! flav); kver;
                       replace "+" "-" (strip "+" frag)]).
Proof.
  intros Hm. unfold _shorten_cros_defconfig. rewrite Hm.
  unfold Re.match_ in Hm.
  destruct (Re.run (Re.p_regex CROS_CONFIG_RE) d)
    as [|[[w caps] rest] l] eqn:Hrun; [discriminate|].
  injection Hm as <-.
  destruct (run_captured (Re.p_regex CROS_CONFIG_RE) d w caps rest)
    as [-> Hcap]; [rewrite Hrun; now left|].
  apply CROS_CONFIG_RE_captured in Hcap
    as (kver & arch & flav & c1 & c2 & frag & -> & Hk & Ha & Hf & Hc
        & Hfrag & ->).
  exists kver, arch, flav, c1, c2, frag, rest.
  split; [now rewrite !append_assoc|]. do 5 (split; [easy|]).
  rewrite <- CROS_FLAVOURS_get.
  destruct Hfrag as [->|(f & -> & _)]; reflexivity.
Qed.


(** *** The characters of a shortened defconfig *)

Lemma all_match_app (a : Re.atom) (s t : string) :
  all_match a (s +:+ t) = all_match a s && all_match a t.
Proof.
  induction s as [|c s IH]; [reflexivity|].
  rewrite append_cons. cbn [all_match]. now rewrite IH, andb_assoc.
Qed.

Lemma all_match_mono (a b : Re.atom) (s : string) :
  (forall c, Re.atom_matches a c = true -> Re.atom_matches b c = true) ->
  all_match a s = true -> all_match b s = true.
Proof.
  intros Hab. induction s as [|c s IH]; [reflexivity|]. cbn [all_match].
  rewrite !andb_true_iff. intros [Hc Hs]. split; [now apply Hab|now apply IH].
Qed.

Lemma all_match_lstrip (a : Re.atom) (chars s : string) :
  all_match a s = true -> all_match a (lstrip chars s) = true.
Proof.
  induction s as [|c s IH]; [reflexivity|]. intros Hs. cbn [lstrip].
  destruct (char_in c chars); [|exact Hs].
  cbn [all_match] in Hs. apply andb_true_iff in Hs as [_ Hs]. now apply IH.
Qed.

Lemma all_match_rstrip (a : Re.atom) (chars s : string) :
  all_match a s = true -> all_match a (rstrip chars s) = true.
Proof.
  induction s as [|c s IH]; [reflexivity|]. cbn [all_match rstrip].
  rewrite andb_true_iff. intros [Hc Hs]. specialize (IH Hs).
  destruct (rstrip chars s) as [|c' t].
  - destruct (char_in c chars); [reflexivity|]. cbn [all_match].
    now rewrite Hc.
  - cbn [all_match] in *. now rewrite Hc.
Qed.

Lemma all_match_replace (a b : Re.atom) (old new : ascii) (s : string) :
  (forall c, Re.atom_matches a c = true ->
             Re.atom_matches b (if Ascii.eqb c old then new else c) = true) ->
  all_match a s = true -> all_match b (replace old new s) = true.
Proof.
  intros Hab. induction s as [|c s IH]; [reflexivity|].
  cbn [all_match replace]. rewrite !andb_true_iff. intros [Hc Hs].
  split; [now apply Hab|now apply IH].
Qed.

Lemma all_match_not_contains (a : Re.atom) (c : ascii) (s : string) :
  Re.atom_matches a c = false ->
  all_match a s = true -> contains (String c "") s = false.
Proof.
  intros Hc. induction s as [|c' s IH]; [reflexivity|].
  cbn [all_match contains String.prefix]. rewrite andb_true_iff.
  intros [Hc' Hs]. rewrite (IH Hs), orb_false_r.
  destruct (ascii_dec c c') as [->|Hne]; [congruence|reflexivity].
Qed.

Lemma kver_chars_flav (c : ascii) :
  Re.atom_matches kver_chars c = true -> Re.atom_matches flav_chars c = true.
Proof.
  destruct c as [[] [] [] [] [] [] [] []]; vm_compute; intros H;
    (reflexivity || discriminate H).
Qed.

Lemma arch_chars_flav (c : ascii) :
  Re.atom_matches arch_chars c = true -> Re.atom_matches flav_chars c = true.
Proof.
  destruct c as [[] [] [] [] [] [] [] []]; vm_compute; intros H;
    (reflexivity || discriminate H).
Qed.

Lemma frag_chars_flav (c : ascii) :
  Re.atom_matches frag_chars c = true ->
  Re.atom_matches flav_chars (if Ascii.eqb c "+" then "-"%char else c) = true.
Proof.
  destruct c as [[] [] [] [] [] [] [] []]; vm_compute; intros H;
    (reflexivity || discriminate H).
Qed.

Lemma CROS_FLAVOURS_chars (flav : string) :
  all_match flav_chars flav = true ->
  all_match flav_chars (default flav (CROS_FLAVOURS !! flav)) = true.
Proof.
  intros Hf.
  destruct (CROS_FLAVOURS !! flav) as [v|] eqn:Hv; [|exact Hf].
  cbn [default]. unfold CROS_FLAVOURS in Hv. cbn [list_to_map foldr] in Hv.
  rewrite !lookup_insert_Some, lookup_empty in Hv.
  repeat (destruct Hv as [[_ <-]|[_ Hv]]; [reflexivity|]).
  discriminate Hv.
Qed.

(** X8.  A shortened defconfig is made of lower-case letters, digits,
    [-], [.] and [_] only; in particular it has no [/] and no [+]. *)
Theorem shorten_cros_defconfig_alphabet (d r : string) :
  _shorten_cros_defconfig d = Ok r ->
  all_match flav_chars r = true
  /\ contains "/" r = false
  /\ contains "+" r = false.
Proof.
  intros Hr.
  assert (Hall : all_match flav_chars r = true).
  { destruct (Re.match_ CROS_CONFIG_RE d) as [m|] eqn:Hm.
    - destruct (shorten_cros_defconfig_matched d m Hm)
        as (kver & arch & flav & c1 & c2 & frag & rest & _ & [_ Hk] & [_ Ha]
            & [_ Hf] & _ & Hfrag & Heq).
      rewrite Heq in Hr. injection Hr as <-.
      cbn [join String.concat]. rewrite !all_match_app.
      rewrite (all_match_mono _ _ _ arch_chars_flav Ha).
      rewrite (CROS_FLAVOURS_chars _ Hf).
      rewrite (all_match_mono _ _ _ kver_chars_flav Hk).
      cbn [all_match andb]. 
      apply (all_match_replace frag_chars); [exact frag_chars_flav|].
      apply all_match_rstrip, all_match_lstrip.
      destruct Hfrag as [->|(f & -> & _ & Hall)]; [reflexivity|].
      rewrite all_match_app. now rewrite Hall.
    - rewrite (shorten_cros_defconfig_unmatched d Hm) in Hr. discriminate. }
  split; [exact Hall|].
  split; now apply (all_match_not_contains flav_chars).
Qed.
Lemma shorten_cros_defconfig_alphabet_witness :
  all_match flav_chars "x86_64-pine-6.1-x86-chromebook" = true
  /\ contains "/" "x86_64-pine-6.1-x86-chromebook" = false
  /\ contains "+" "x86_64-pine-6.1-x86-chromebook" = false.
Proof.
  apply (shorten_cros_defconfig_alphabet
           ("cros://chromeos-6.1/x86_64/chromeos-intel-pineview"
            +:+ ".flavour.config+x86-chromebook")).
  vm_compute. reflexivity.
Defined.


(** ** [_shorten_cros_name]: what a job name is made of *)

Lemma contains_replace (old new : ascii) (s : string) :
  old <> new -> contains (String old "") (replace old new s) = false.
Proof.
  intros Hne. induction s as [|c s IH]; [reflexivity|].
  cbn [replace contains String.prefix]. rewrite IH, orb_false_r.
  destruct (Ascii.eqb c old) eqn:Hc.
  - destruct (ascii_dec old new); [contradiction|reflexivity].
  - apply Ascii.eqb_neq in Hc.
    destruct (ascii_dec old c); [congruence|reflexivity].
Qed.

Lemma shorten_cros_name_cros (params : dict) (d : string) (n : value) :
  params !! "defconfig_full" = Some (VStr d) ->
  startswith d "cros:" = true ->
  _shorten_cros_name params = Ok n ->
  exists joined, n = VStr (replace "/" "-" joined).
Proof.
  intros Hd Hpre. unfold _shorten_cros_name.
  rewrite (getitem_Some _ _ _ Hd), bind_Ok, Hpre.
  destruct (getitem params "tree"); [|discriminate].
  destruct (getitem params "git_branch"); [|discriminate].
  destruct (getitem params "git_describe"); [|discriminate].
  destruct (getitem params "arch"); [|discriminate].
  destruct (_shorten_cros_defconfig d); [|discriminate].
  destruct (getitem params "build_environment"); [|discriminate].
  destruct (getitem params "device_type"); [|discriminate].
  destruct (getitem params "plan"); [|discriminate].
  rewrite !bind_Ok.
  destruct (py_join _ _) as [joined|]; [|discriminate].
  rewrite bind_Ok. intros [= <-]. now exists joined.
Qed.

(** X10.  The job name made for a [cros:] defconfig is text without
    any [/], whatever the tree, the branch and the other parts hold. *)
Theorem shorten_cros_name_no_slash (params : dict) (d : string) (n : value) :
  params !! "defconfig_full" = Some (VStr d) ->
  startswith d "cros:" = true ->
  _shorten_cros_name params = Ok n ->
  exists s, n = VStr s /\ contains "/" s = false.
Proof.
  intros Hd Hpre Hn.
  destruct (shorten_cros_name_cros params d n Hd Hpre Hn) as (joined & ->).
  exists (replace "/" "-" joined). split; [reflexivity|].
  now apply contains_replace.
Qed.
Lemma shorten_cros_name_no_slash_witness :
  exists s,
    VStr ("mainline-for-next-v6.1-arm64-arm64-arm64-5.15-bar-gcc-10"
          +:+ "-qemu-x86-boot") = VStr s
    /\ contains "/" s = false.
Proof.
  pose (d := "cros://chromeos-5.15/arm64/chromiumos-arm64.flavour.config+bar").
  pose (params :=
    list_to_map [("defconfig_full", VStr d); ("tree", VStr "mainline");
                 ("git_branch", VStr "for/next");
                 ("git_describe", VStr "v6.1"); ("arch", VStr "arm64");
                 ("build_environment", VStr "gcc-10");
                 ("device_type", VStr "qemu_x86_64-uefi-chromeos");
                 ("plan", VStr "boot"); ("name", VStr "long-name")] : dict).
  apply (shorten_cros_name_no_slash params d);
    [reflexivity | reflexivity | vm_compute; reflexivity].
Defined.


Lemma getitem_absent (d : dict) (key : string) :
  getitem d key
  = if absent d key then Raise (KeyError key) else Ok (get d key).
Proof. unfold getitem, absent, get. now destruct (d !! key). Qed.

(** X11.  Missing keys of a [cros:] job.  The first of [tree],
    [git_branch], [git_describe] and [arch] that [params] does not hold
    is reported by a [KeyError], before the defconfig is looked at (so
    also when it is malformed).  When these four are present and the
    defconfig can be shortened, the first of [build_environment],
    [device_type] and [plan] that is missing is reported by a
    [KeyError]. *)
Theorem shorten_cros_name_missing (params : dict) (d : string) (key : string) :
  params !! "defconfig_full" = Some (VStr d) ->
  startswith d "cros:" = true ->
  (find (absent params) ["tree"; "git_branch"; "git_describe"; "arch"]
   = Some key ->
   _shorten_cros_name params = Raise (KeyError key))
  /\ (find (absent params) ["tree"; "git_branch"; "git_describe"; "arch"]
      = None ->
      (exists defconfig, _shorten_cros_defconfig d = Ok defconfig) ->
      find (absent params) ["build_environment"; "device_type"; "plan"]
      = Some key ->
      _shorten_cros_name params = Raise (KeyError key)).
Proof.
  intros Hd Hpre. unfold _shorten_cros_name.
  rewrite (getitem_Some _ _ _ Hd), bind_Ok, Hpre, !getitem_absent.
  cbn [find]. split.
  - destruct (absent params "tree"); [now intros [= <-]|].
    destruct (absent params "git_branch"); [now intros [= <-]|].
    destruct (absent params "git_describe"); [now intros [= <-]|].
    destruct (absent params "arch"); [now intros [= <-]|]. discriminate.
  - destruct (absent params "tree"); [discriminate|].
    destruct (absent params "git_branch"); [discriminate|].
    destruct (absent params "git_describe"); [discriminate|].
    destruct (absent params "arch"); [discriminate|].
    intros _ (defconfig & ->). rewrite !bind_Ok.
    destruct (absent params "build_environment"); [now intros [= <-]|].
    destruct (absent params "device_type"); [now intros [= <-]|].
    destruct (absent params "plan"); [now intros [= <-]|]. discriminate.
Qed.
Lemma shorten_cros_name_missing_witness :
  let malformed : dict :=
    list_to_map [("defconfig_full", VStr "cros://not-a-config");
                 ("tree", VStr "mainline"); ("arch", VStr "arm64")] in
  let d := "cros://chromeos-5.15/arm64/chromiumos-arm64.flavour.config" in
  let wellformed : dict :=
    list_to_map [("defconfig_full", VStr d); ("tree", VStr "mainline");
                 ("git_branch", VStr "master");
                 ("git_describe", VStr "v6.1"); ("arch", VStr "arm64");
                 ("build_environment", VStr "gcc-10");
                 ("plan", VStr "boot")] in
  _shorten_cros_name malformed = Raise (KeyError "git_branch")
  /\ _shorten_cros_name wellformed = Raise (KeyError "device_type").
Proof.
  intros malformed d wellformed. split.
  - apply (proj1 (shorten_cros_name_missing malformed "cros://not-a-config"
                    "git_branch" eq_refl eq_refl)).
    reflexivity.
  - apply (proj2 (shorten_cros_name_missing wellformed d "device_type"
                    eq_refl eq_refl)).
    + reflexivity.
    + exists "arm64-arm64-5.15-". vm_compute. reflexivity.
    + reflexivity.
Defined.


Lemma values_str_not_text (vs : list value) :
  forallb is_str vs = false -> values_str vs = Raise TypeError.
Proof.
  induction vs as [|v vs IH]; [discriminate|]. cbn [forallb values_str].
  destruct v as [|z|s]; cbn [is_str value_str andb]; try reflexivity.
  intros H. rewrite bind_Ok, (IH H). reflexivity.
Qed.

Lemma is_str_shorten_cros_device_type (v : value) :
  is_str (_shorten_cros_device_type v) = is_str v.
Proof. now destruct v. Qed.

(** X12.  A [cros:] job name is made of text only: when all keys are
    present and the defconfig can be shortened, but one of the seven
    values is not a [str] (a number, [None]), the method raises
    [TypeError]; a number is not turned into text. *)
Theorem shorten_cros_name_not_text (params : dict) (d : string)
    (tree git_branch git_describe arch build_environment device_type
       plan : value) :
  params !! "defconfig_full" = Some (VStr d) ->
  startswith d "cros:" = true ->
  params !! "tree" = Some tree ->
  params !! "git_branch" = Some git_branch ->
  params !! "git_describe" = Some git_describe ->
  params !! "arch" = Some arch ->
  params !! "build_environment" = Some build_environment ->
  params !! "device_type" = Some device_type ->
  params !! "plan" = Some plan ->
  (exists defconfig, _shorten_cros_defconfig d = Ok defconfig) ->
  forallb is_str [tree; git_branch; git_describe; arch; build_environment;
                  device_type; plan] = false ->
  _shorten_cros_name params = Raise TypeError.
Proof.
  intros Hd Hpre Ht Hb Hgd Ha He Hdt Hp (defconfig & Hdc) Hno.
  unfold _shorten_cros_name.
  rewrite (getitem_Some _ _ _ Hd), bind_Ok, Hpre.
  rewrite (getitem_Some _ _ _ Ht), (getitem_Some _ _ _ Hb),
    (getitem_Some _ _ _ Hgd), (getitem_Some _ _ _ Ha), Hdc,
    (getitem_Some _ _ _ He), (getitem_Some _ _ _ Hdt),
    (getitem_Some _ _ _ Hp), !bind_Ok.
  unfold py_join. rewrite values_str_not_text; [reflexivity|].
  cbn [forallb] in *. rewrite is_str_shorten_cros_device_type.
  cbn [is_str andb]. exact Hno.
Qed.
Lemma shorten_cros_name_not_text_witness :
  let d := "cros://chromeos-5.15/arm64/chromiumos-arm64.flavour.config" in
  let params : dict :=
    list_to_map [("defconfig_full", VStr d); ("tree", VStr "mainline");
                 ("git_branch", VStr "master");
                 ("git_describe", VInt 61); ("arch", VStr "arm64");
                 ("build_environment", VStr "gcc-10");
                 ("device_type", VStr "qemu_x86_64-uefi-chromeos");
                 ("plan", VStr "boot")] in
  _shorten_cros_name params = Raise TypeError.
Proof.
  intros d params.
  apply (shorten_cros_name_not_text params d
           (VStr "mainline") (VStr "master") (VInt 61) (VStr "arm64")
           (VStr "gcc-10") (VStr "qemu_x86_64-uefi-chromeos") (VStr "boot"));
    try reflexivity.
  exists "arm64-arm64-5.15-". vm_compute. reflexivity.
Defined.


(** ** [_shorten_cros_device_type] *)

(** X9.  Shortening a device type twice is the same as shortening it
    once: no short code of [CROS_DEVICE_TYPES] is itself a key of the
    table. *)
Theorem shorten_cros_device_type_idempotent (device_type : value) :
  _shorten_cros_device_type (_shorten_cros_device_type device_type)
  = _shorten_cros_device_type device_type.
Proof.
  destruct device_type as [|z|s]; try reflexivity.
  cbn [_shorten_cros_device_type]. f_equal.
  rewrite (CROS_DEVICE_TYPES_get s).
  destruct (CROS_DEVICE_TYPES !! s) as [v|] eqn:Hv; cbn [default].
  - unfold CROS_DEVICE_TYPES in Hv. cbn [list_to_map foldr] in Hv.
    rewrite !lookup_insert_Some, lookup_empty in Hv.
    repeat (destruct Hv as [[_ <-]|[_ Hv]]; [reflexivity|]).
    discriminate Hv.
  - unfold get_or_key. now rewrite Hv.
Qed.

(** ** [job_file_name]: from the file name back to the name *)

Lemma length_append (s t : string) :
  String.length (s +:+ t) = (String.length s + String.length t)%nat.
Proof.
  induction s as [|c s IH]; [reflexivity|].
  rewrite append_cons. cbn [String.length]. now rewrite IH.
Qed.

Lemma append_inj_l (s t u : string) : s +:+ u = t +:+ u -> s = t.
Proof.
  intros H.
  assert (Hlen : String.length s = String.length t).
  { apply (f_equal String.length) in H. rewrite !length_append in H. lia. }
  revert t H Hlen. induction s as [|c s IH]; intros [|c' t] H Hlen;
    try discriminate; [reflexivity|].
  rewrite !append_cons in H. injection H as -> H.
  f_equal. apply IH; [exact H|]. cbn [String.length] in Hlen. lia.
Qed.

Lemma job_file_name_Ok (params : dict) (file : string) :
  job_file_name params = Ok file ->
  exists X, params !! "name" = Some (VStr X) /\ file = X +:+ ".yaml".
Proof.
  unfold job_file_name, getitem.
  destruct (params !! "name") as [[|z|X]|]; try discriminate.
  rewrite bind_Ok. intros [= <-]. now exists X.
Qed.

(** X13.  The file name tells the job name: when [job_file_name]
    returns the same file name for two parameter mappings, their [name]
    entries are the same.  Two jobs with different names never share a
    file. *)
Theorem job_file_name_inj (params params' : dict) (file : string) :
  job_file_name params = Ok file ->
  job_file_name params' = Ok file ->
  params !! "name" = params' !! "name".
Proof.
  intros H H'.
  apply job_file_name_Ok in H as (X & -> & ->).
  apply job_file_name_Ok in H' as (X' & -> & Heq).
  do 2 f_equal. exact (append_inj_l _ _ _ Heq).
Qed.
Lemma job_file_name_inj_witness :
  ({[ "name" := VStr "baseline-qemu" ]} : dict) !! "name"
  = (list_to_map [("name", VStr "baseline-qemu"); ("plan", VStr "boot")]
       : dict) !! "name".
Proof.
  apply (job_file_name_inj {[ "name" := VStr "baseline-qemu" ]}
           (list_to_map [("name", VStr "baseline-qemu");
                         ("plan", VStr "boot")])
           "baseline-qemu.yaml"); reflexivity.
Defined.


(** ** [_add_callback_params]: failure and repetition *)

(** X18.  A failed call is not undone.  When the options hold an [id]
    but no [url] (or, with a [url], no [dataset]), the method raises
    [KeyError] for that key and writes none of [callback],
    [callback_url], [callback_dataset] and [callback_type]; but for the
    type [kernelci] the entry [callback_name] is written before the
    exception and stays in [params]. *)
Theorem add_callback_params_partial (params opts : dict) (plan : value)
    (key : string) :
  truthy (get opts "id") = true ->
  params !! "plan" = Some plan ->
  find (absent opts) ["url"; "dataset"] = Some key ->
  _add_callback_params params opts
  = (if value_eqb (get opts "type") (VStr "kernelci")
     then <["callback_name" :=
              VStr (if value_eqb plan (VStr "boot")
                    then "lava/boot" else "lava/test")]> params
     else params,
     Raise (KeyError key)).
Proof.
  intros Hid Hplan Hkey. unfold _add_callback_params.
  rewrite Hid, (getitem_Some _ _ _ Hplan), bind_Ok, !getitem_absent.
  cbn [negb find] in *.
  destruct (value_eqb (get opts "type") (VStr "kernelci"));
    destruct (absent opts "url"); try (injection Hkey as <-);
    try (destruct (value_eqb plan (VStr "boot")); reflexivity);
    try reflexivity;
    destruct (absent opts "dataset"); try discriminate;
    injection Hkey as <-;
    try (destruct (value_eqb plan (VStr "boot")); reflexivity);
    reflexivity.
Qed.
Lemma add_callback_params_partial_witness :
  _add_callback_params {[ "plan" := VStr "boot" ]}
    (list_to_map [("id", VStr "kci-callback"); ("type", VStr "kernelci");
                  ("url", VStr "https://api.example.org")])
  = (<["callback_name" := VStr "lava/boot"]> {[ "plan" := VStr "boot" ]},
     Raise (KeyError "dataset")).
Proof.
  etransitivity;
    [apply (add_callback_params_partial {[ "plan" := VStr "boot" ]}
              (list_to_map [("id", VStr "kci-callback");
                            ("type", VStr "kernelci");
                            ("url", VStr "https://api.example.org")])
              (VStr "boot") "dataset");
       reflexivity
    | reflexivity].
Defined.


Lemma getitem_Ok (d : dict) (key : string) (v : value) :
  getitem d key = Ok v -> d !! key = Some v.
Proof. unfold getitem. destruct (d !! key); now intros [= ->]. Qed.

(** X19.  Adding the callback parameters a second time changes
    nothing: after a call that ended without exception, the same call on
    the updated [params] ends without exception and leaves [params] as
    it is. *)
Theorem add_callback_params_idempotent (params opts : dict) :
  snd (_add_callback_params params opts) = Ok tt ->
  _add_callback_params (fst (_add_callback_params params opts)) opts
  = (fst (_add_callback_params params opts), Ok tt).
Proof.
  unfold _add_callback_params.
  destruct (truthy (get opts "id")) eqn:Hid; cbn [negb fst snd];
    [|reflexivity].
  destruct (getitem opts "url") as [url|] eqn:Hurl;
    [|now destruct (value_eqb _ _), (getitem params "plan")].
  destruct (getitem opts "dataset") as [dataset|] eqn:Hds;
    [|now destruct (value_eqb _ _), (getitem params "plan")].
  rewrite !bind_Ok.
  destruct (value_eqb (get opts "type") (VStr "kernelci")) eqn:Hk.
  - destruct (getitem params "plan") as [plan|] eqn:Hplan; [|discriminate].
    rewrite bind_Ok. cbn [fst snd]. intros _.
    apply getitem_Ok in Hplan.
    set (named := VStr (join "/" ["lava"; if value_eqb plan (VStr "boot")
                                          then "boot" else "test"])).
    unfold update. cbn [foldl fst snd].
    rewrite (getitem_Some _ "plan" plan)
      by now rewrite !lookup_insert_ne by done.
    rewrite bind_Ok. fold named. f_equal. apply map_eq. intros i.
    rewrite !lookup_insert.
    repeat destruct (decide _); congruence.
  - cbn [fst snd]. intros _. unfold update. cbn [foldl fst snd].
    f_equal. apply map_eq. intros i. rewrite !lookup_insert.
    repeat destruct (decide _); congruence.
Qed.
Lemma add_callback_params_idempotent_witness :
  let opts : dict :=
    list_to_map [("id", VStr "kci-callback"); ("type", VStr "kernelci");
                 ("url", VStr "https://api.example.org");
                 ("dataset", VStr "all")] in
  let params : dict := {[ "plan" := VStr "login" ]} in
  _add_callback_params (_add_callback_params params opts).1 opts
  = ((_add_callback_params params opts).1, Ok tt).
Proof.
  intros opts params.
  apply (add_callback_params_idempotent params opts). reflexivity.
Defined.


(** ** [generate]: what it leaves in [params], and what it renders *)

(** [_add_callback_params] writes to the five callback keys only, also
    when it ends by an exception. *)
Lemma add_callback_params_frame (params opts : dict) (key : string) :
  key ∉ ["callback"; "callback_url"; "callback_dataset"; "callback_type";
         "callback_name"] ->
  (_add_callback_params params opts).1 !! key = params !! key.
Proof.
  rewrite !not_elem_of_cons. intros (? & ? & ? & ? & ? & _).
  unfold _add_callback_params, update.
  destruct (truthy (get opts "id")); cbn [negb fst]; [|reflexivity].
  destruct (value_eqb (get opts "type") (VStr "kernelci")),
    (getitem params "plan") as [plan|], (getitem opts "url") as [url|],
    (getitem opts "dataset") as [dataset|];
    unfold mbind, result_bind; cbn [foldl fst snd];
    now rewrite ?lookup_insert_ne by done.
Qed.

(** Entries are written, never deleted. *)
Lemma update_keeps (d : dict) (items : list (string * value)) (key : string) :
  is_Some (d !! key) -> is_Some (update d items !! key).
Proof.
  unfold update. revert d. induction items as [|[k v] items IH]; intros d Hd;
    [exact Hd|].
  cbn [foldl fst snd]. apply IH. apply lookup_insert_is_Some'. now right.
Qed.

Lemma add_callback_params_keeps (params opts : dict) (key : string) :
  is_Some (params !! key) ->
  is_Some ((_add_callback_params params opts).1 !! key).
Proof.
  intros Hkey. unfold _add_callback_params.
  destruct (truthy (get opts "id")); cbn [negb fst]; [|exact Hkey].
  destruct (value_eqb (get opts "type") (VStr "kernelci")),
    (getitem params "plan") as [plan|], (getitem opts "url") as [url|],
    (getitem opts "dataset") as [dataset|];
    unfold mbind, result_bind; cbn [fst snd];
    try exact Hkey;
    try (apply update_keeps);
    try (apply lookup_insert_is_Some'; now right); exact Hkey.
Qed.

Lemma outcome_bind_Return {E A B : Type} (a : A) (k : A -> outcome E B) :
  (Return a ≫= k) = k a.
Proof. reflexivity. Qed.

Ltac not_in_list :=
  repeat (apply not_elem_of_cons; split; [done|]); apply not_elem_of_nil.

Section GenerateProperties.

Context {E loader environment template : Type}.

Variable get_template_path : plan_config -> value -> outcome E string.
Variable _alias_device_type : value -> outcome E value.
Variable FileSystemLoader : list string -> loader.
Variable Environment : loader -> list string -> environment.
Variable add_kci_raise : environment -> environment.
Variable get_template : environment -> string -> outcome E template.
Variable render : template -> dict -> outcome E string.

#[local] Abbreviation generate_with :=
  (generate get_template_path _alias_device_type FileSystemLoader Environment
     add_kci_raise get_template render).

(** The five entries computed by [generate]. *)
Lemma generate_prepared (config : lab_config) (params : dict)
    (device : device_config) (plan : plan_config)
    (callback_opts : option dict) (templates_paths : option (list string))
    (file : string) (base prio alias shortened : value) :
  get_template_path plan (boot_method device) = Return file ->
  params !! "base_device_type" = Some base ->
  _get_priority (priorities config) plan = Ok prio ->
  _alias_device_type base = Return alias ->
  _shorten_cros_name params = Ok shortened ->
  let params1 :=
    update params [("queue_timeout", queue_timeout config);
                   ("lab_name", name config); ("base_device_type", alias);
                   ("priority", prio); ("name", shortened)] in
  let after_callback :=
    match callback_opts with
    | Some opts =>
        if dict_truthy callback_opts then _add_callback_params params1 opts
        else (params1, Ok tt)
    | None => (params1, Ok tt)
    end in
  let jinja2_env :=
    add_kci_raise
      (Environment
         (FileSystemLoader (default DEFAULT_TEMPLATE_PATHS templates_paths))
         ["jinja2.ext.do"]) in
  generate_with config params device plan callback_opts templates_paths
  = (after_callback.1,
     match after_callback.2 with
     | Raise e => Throw (Builtin e)
     | Ok _ =>
         t ← get_template jinja2_env file; render t after_callback.1
     end).
Proof.
  intros Hfile Hbase Hprio Halias Hname. cbv zeta. unfold generate.
  rewrite Hfile, outcome_bind_Return, (getitem_Some _ _ _ Hbase).
  cbn [lift]. rewrite outcome_bind_Return, Hprio. cbn [lift].
  rewrite outcome_bind_Return, Halias, outcome_bind_Return, Hname.
  cbn [lift]. rewrite outcome_bind_Return.
  destruct callback_opts as [opts|].
  - destruct (dict_truthy (Some opts)).
    + destruct (_add_callback_params _ opts) as [params2 [[]|e]];
        now destruct templates_paths.
    + now destruct templates_paths.
  - now destruct templates_paths.
Qed.


(** X1.  What [generate] leaves in [params].  When the template path
    is resolved, [base_device_type] is present, and the priority, the
    alias and the job name are computed, then [params] ends up with
    [queue_timeout] and [lab_name] from the runtime configuration,
    [base_device_type] replaced by its alias, [priority] set to the
    scaled priority and [name] set to the job name computed from the
    parameters as they were before the call.  This holds whether or not
    the callback parameters and the template then fail.  Apart from
    these five keys and the five callback keys, no entry changes. *)
Theorem generate_params (config : lab_config) (params : dict)
    (device : device_config) (plan : plan_config)
    (callback_opts : option dict) (templates_paths : option (list string))
    (file : string) (base prio alias shortened : value) :
  get_template_path plan (boot_method device) = Return file ->
  params !! "base_device_type" = Some base ->
  _get_priority (priorities config) plan = Ok prio ->
  _alias_device_type base = Return alias ->
  _shorten_cros_name params = Ok shortened ->
  let params' :=
    (generate_with config params device plan callback_opts templates_paths).1
  in
  params' !! "queue_timeout" = Some (queue_timeout config)
  /\ params' !! "lab_name" = Some (name config)
  /\ params' !! "base_device_type" = Some alias
  /\ params' !! "priority" = Some prio
  /\ params' !! "name" = Some shortened
  /\ forall key : string,
       key ∉ ["queue_timeout"; "lab_name"; "base_device_type"; "priority";
              "name"; "callback"; "callback_url"; "callback_dataset";
              "callback_type"; "callback_name"] ->
       params' !! key = params !! key.
Proof.
  intros Hfile Hbase Hprio Halias Hname. cbv zeta.
  rewrite (generate_prepared config params device plan callback_opts
             templates_paths file base prio alias shortened) by assumption.
  cbv zeta. cbn [fst].
  set (params1 := update params _).
  assert (Hsame : forall key : string,
    key ∉ ["callback"; "callback_url"; "callback_dataset"; "callback_type";
           "callback_name"] ->
    match callback_opts with
    | Some opts =>
        if dict_truthy callback_opts then _add_callback_params params1 opts
        else (params1, Ok tt)
    | None => (params1, Ok tt)
    end.1 !! key = params1 !! key).
  { intros key Hkey. destruct callback_opts as [opts|]; [|reflexivity].
    destruct (dict_truthy (Some opts)); [|reflexivity].
    now apply add_callback_params_frame. }
  repeat split.
  - rewrite Hsame by not_in_list.
    subst params1. unfold update. cbn [foldl fst snd].
    now rewrite !lookup_insert_ne, lookup_insert_eq by done.
  - rewrite Hsame by not_in_list.
    subst params1. unfold update. cbn [foldl fst snd].
    now rewrite !lookup_insert_ne, lookup_insert_eq by done.
  - rewrite Hsame by not_in_list.
    subst params1. unfold update. cbn [foldl fst snd].
    now rewrite !lookup_insert_ne, lookup_insert_eq by done.
  - rewrite Hsame by not_in_list.
    subst params1. unfold update. cbn [foldl fst snd].
    now rewrite !lookup_insert_ne, lookup_insert_eq by done.
  - rewrite Hsame by not_in_list.
    subst params1. unfold update. cbn [foldl fst snd].
    now rewrite lookup_insert_eq.
  - intros key Hkey. rewrite !not_elem_of_cons in Hkey.
    destruct Hkey as (? & ? & ? & ? & ? & ? & ? & ? & ? & ? & _).
    rewrite Hsame by not_in_list.
    subst params1. unfold update. cbn [foldl fst snd].
    now rewrite !lookup_insert_ne by done.
Qed.

Lemma generate_cases (config : lab_config) (params : dict)
    (device : device_config) (plan : plan_config)
    (callback_opts : option dict) (templates_paths : option (list string)) :
  (exists file base prio alias shortened,
     get_template_path plan (boot_method device) = Return file
     /\ params !! "base_device_type" = Some base
     /\ _get_priority (priorities config) plan = Ok prio
     /\ _alias_device_type base = Return alias
     /\ _shorten_cros_name params = Ok shortened)
  \/ exists e,
       generate_with config params device plan callback_opts templates_paths
       = (params, Throw e).
Proof.
  destruct (get_template_path plan (boot_method device)) as [file|e] eqn:Hfile;
    [|right; exists e; unfold generate; now rewrite Hfile].
  destruct (params !! "base_device_type") as [base|] eqn:Hbase;
    [|right; eexists; unfold generate, getitem;
      rewrite Hfile, Hbase; reflexivity].
  destruct (_get_priority (priorities config) plan) as [prio|e] eqn:Hprio;
    [|right; eexists; unfold generate, getitem;
      rewrite Hfile, Hbase, Hprio; reflexivity].
  destruct (_alias_device_type base) as [alias|e] eqn:Halias;
    [|right; exists e; unfold generate, getitem;
      rewrite Hfile, Hbase, Hprio; cbn [lift];
      rewrite !outcome_bind_Return, Halias; reflexivity].
  destruct (_shorten_cros_name params) as [shortened|e] eqn:Hname;
    [|right; eexists; unfold generate, getitem;
      rewrite Hfile, Hbase, Hprio; cbn [lift];
      rewrite !outcome_bind_Return, Halias, outcome_bind_Return, Hname;
      reflexivity].
  left. now exists file, base, prio, alias, shortened.
Qed.

(** X2.  The first update is all or nothing: if [generate] leaves
    [params] different from what it was, then the template path was
    resolved, [base_device_type] was present, and the priority, the
    alias and the job name were all computed.  A failure of one of these
    leaves [params] untouched. *)
Theorem generate_all_or_nothing (config : lab_config) (params : dict)
    (device : device_config) (plan : plan_config)
    (callback_opts : option dict) (templates_paths : option (list string)) :
  (generate_with config params device plan callback_opts templates_paths).1
  <> params ->
  exists file base prio alias shortened,
    get_template_path plan (boot_method device) = Return file
    /\ params !! "base_device_type" = Some base
    /\ _get_priority (priorities config) plan = Ok prio
    /\ _alias_device_type base = Return alias
    /\ _shorten_cros_name params = Ok shortened.
Proof.
  intros Hchanged.
  destruct (generate_cases config params device plan callback_opts
              templates_paths) as [Hall|(e & Heq)]; [exact Hall|].
  now rewrite Heq in Hchanged.
Qed.

(** X3.  Callback options that are [None], that are an empty
    dictionary, or that hold no [id] (or an empty one) are all the
    same to [generate]: the result and the final [params] are those of
    a call without callback options. *)
Theorem generate_no_callback (config : lab_config) (params : dict)
    (device : device_config) (plan : plan_config)
    (callback_opts : option dict) (templates_paths : option (list string)) :
  dict_truthy callback_opts = false
  \/ (exists opts,
        callback_opts = Some opts /\ truthy (get opts "id") = false) ->
  generate_with config params device plan callback_opts templates_paths
  = generate_with config params device plan None templates_paths.
Proof.
  intros Hopts. unfold generate.
  destruct (_ ≫= _) as [[file params1]|e]; [|reflexivity].
  destruct Hopts as [Hfalse|(opts & -> & Hid)].
  - rewrite Hfalse. now destruct callback_opts.
  - destruct (dict_truthy (Some opts)); [|reflexivity].
    unfold _add_callback_params. rewrite Hid. reflexivity.
Qed.

(** X4.  What is rendered is what the caller holds.  When [generate]
    returns a job, that job is the rendering of the template found
    under the resolved template path, in an environment made (with the
    extension [jinja2.ext.do] and [add_kci_raise]) for the given search
    paths, or for [DEFAULT_TEMPLATE_PATHS] when none are given, applied
    to [params] exactly as the call leaves it. *)
Theorem generate_rendered (config : lab_config) (params : dict)
    (device : device_config) (plan : plan_config)
    (callback_opts : option dict) (templates_paths : option (list string))
    (data : string) :
  (generate_with config params device plan callback_opts templates_paths).2
  = Return data ->
  exists file t,
    get_template_path plan (boot_method device) = Return file
    /\ get_template
         (add_kci_raise
            (Environment
               (FileSystemLoader
                  (default DEFAULT_TEMPLATE_PATHS templates_paths))
               ["jinja2.ext.do"])) file = Return t
    /\ render t
         (generate_with config params device plan callback_opts
            templates_paths).1
       = Return data.
Proof.
  destruct (generate_cases config params device plan callback_opts
              templates_paths)
    as [(file & base & prio & alias & shortened & Hfile & Hbase & Hprio
         & Halias & Hname)|(e & ->)]; [|discriminate].
  rewrite (generate_prepared config params device plan callback_opts
             templates_paths file base prio alias shortened) by assumption.
  cbv zeta. cbn [fst snd].
  destruct (match callback_opts with Some _ => _ | None => _ end)
    as [params2 [[]|e]]; cbn [fst snd]; [|discriminate].
  destruct (get_template _ file) as [t|e] eqn:Ht; [|discriminate].
  rewrite outcome_bind_Return. intros Hdata. now exists file, t.
Qed.


Lemma generate_name (config : lab_config) (params : dict)
    (device : device_config) (plan : plan_config)
    (callback_opts : option dict) (templates_paths : option (list string))
    (data : string) :
  (generate_with config params device plan callback_opts templates_paths).2
  = Return data ->
  exists shortened,
    _shorten_cros_name params = Ok shortened
    /\ (generate_with config params device plan callback_opts
          templates_paths).1 !! "name" = Some shortened.
Proof.
  destruct (generate_cases config params device plan callback_opts
              templates_paths)
    as [(file & base & prio & alias & shortened & Hfile & Hbase & Hprio
         & Halias & Hname)|(e & ->)]; [|discriminate].
  intros _. exists shortened. split; [exact Hname|].
  rewrite (generate_prepared config params device plan callback_opts
             templates_paths file base prio alias shortened) by assumption.
  cbv zeta. cbn [fst].
  transitivity
    (update params [("queue_timeout", queue_timeout config);
                    ("lab_name", name config); ("base_device_type", alias);
                    ("priority", prio); ("name", shortened)] !! "name").
  - destruct callback_opts as [opts|]; [|reflexivity].
    destruct (dict_truthy (Some opts)); [|reflexivity].
    apply add_callback_params_frame. not_in_list.
  - unfold update. cbn [foldl fst snd]. now rewrite lookup_insert_eq.
Qed.

(** X5.  [generate] followed by [job_file_name].  After a call of
    [generate] that returned a job: for a [cros:] defconfig the file
    name is the shortened job name with [.yaml], and the name has no
    [/] in it; for any other defconfig the file name is the one
    [job_file_name] gave before the call. *)
Theorem generate_job_file_name (config : lab_config) (params : dict)
    (device : device_config) (plan : plan_config)
    (callback_opts : option dict) (templates_paths : option (list string))
    (data d : string) :
  (generate_with config params device plan callback_opts templates_paths).2
  = Return data ->
  params !! "defconfig_full" = Some (VStr d) ->
  let params' :=
    (generate_with config params device plan callback_opts templates_paths).1
  in
  (startswith d "cros:" = true ->
   exists X,
     _shorten_cros_name params = Ok (VStr X)
     /\ job_file_name params' = Ok (X +:+ ".yaml")
     /\ contains "/" X = false)
  /\ (startswith d "cros:" = false ->
      job_file_name params' = job_file_name params).
Proof.
  intros Hdata Hd. cbv zeta.
  destruct (generate_name config params device plan callback_opts
              templates_paths data Hdata) as (shortened & Hname & Hlookup).
  split; intros Hpre.
  - destruct (shorten_cros_name_cros params d shortened Hd Hpre Hname)
      as (joined & ->).
    exists (replace "/" "-" joined). split; [exact Hname|].
    split; [now apply job_file_name_str|now apply contains_replace].
  - unfold _shorten_cros_name in Hname.
    rewrite (getitem_Some _ _ _ Hd), bind_Ok, Hpre in Hname.
    unfold job_file_name. rewrite Hname.
    now rewrite (getitem_Some _ _ _ Hlookup).
Qed.

(** X20.  [generate] never removes an entry: every key of [params]
    is still a key after the call, whether the call returns a job or
    ends by an exception. *)
Theorem generate_keeps (config : lab_config) (params : dict)
    (device : device_config) (plan : plan_config)
    (callback_opts : option dict) (templates_paths : option (list string))
    (key : string) :
  is_Some (params !! key) ->
  is_Some
    ((generate_with config params device plan callback_opts
        templates_paths).1 !! key).
Proof.
  intros Hkey.
  destruct (generate_cases config params device plan callback_opts
              templates_paths)
    as [(file & base & prio & alias & shortened & Hfile & Hbase & Hprio
         & Halias & Hname)|(e & ->)]; [|exact Hkey].
  rewrite (generate_prepared config params device plan callback_opts
             templates_paths file base prio alias shortened) by assumption.
  cbv zeta. cbn [fst].
  destruct callback_opts as [opts|]; [|now apply update_keeps].
  destruct (dict_truthy (Some opts)); [|now apply update_keeps].
  now apply add_callback_params_keeps, update_keeps.
Qed.

End GenerateProperties.

(** *** Examples, with the collaborators [example_template_path] etc. *)

Lemma generate_params_witness :
  let config :=
    {| priorities := {| priority := VInt 50; priority_min := VNone;
                        priority_max := VNone |};
       queue_timeout := VInt 30; name := VStr "lab-example" |} in
  let params : dict :=
    list_to_map [("base_device_type", VStr "qemu");
                 ("defconfig_full", VStr "defconfig");
                 ("name", VStr "baseline-qemu"); ("plan", VStr "baseline")] in
  let device := {| boot_method := VStr "qemu" |} in
  let plan := {| params := {[ "priority" := VInt 20 ]} |} in
  let params' := (generate_example config params device plan None None).1 in
  params' !! "queue_timeout" = Some (VInt 30)
  /\ params' !! "lab_name" = Some (VStr "lab-example")
  /\ params' !! "base_device_type" = Some (VStr "qemu")
  /\ params' !! "priority" = Some (VInt 10)
  /\ params' !! "name" = Some (VStr "baseline-qemu")
  /\ forall key : string,
       key ∉ ["queue_timeout"; "lab_name"; "base_device_type"; "priority";
              "name"; "callback"; "callback_url"; "callback_dataset";
              "callback_type"; "callback_name"] ->
       params' !! key = params !! key.
Proof.
  intros config params device plan. unfold generate_example.
  apply generate_params
    with (file := "boot/generic-qemu-template.jinja2") (base := VStr "qemu");
    reflexivity.
Defined.

Lemma generate_all_or_nothing_witness :
  let config :=
    {| priorities := {| priority := VInt 50; priority_min := VNone;
                        priority_max := VNone |};
       queue_timeout := VInt 30; name := VStr "lab-example" |} in
  let params : dict :=
    list_to_map [("base_device_type", VStr "qemu");
                 ("defconfig_full", VStr "defconfig");
                 ("name", VStr "baseline-qemu"); ("plan", VStr "baseline")] in
  let device := {| boot_method := VStr "qemu" |} in
  let plan := {| params := {[ "priority" := VInt 20 ]} |} in
  exists file base prio alias shortened,
    example_template_path plan (boot_method device) = Return file
    /\ params !! "base_device_type" = Some base
    /\ _get_priority (priorities config) plan = Ok prio
    /\ example_alias base = Return alias
    /\ _shorten_cros_name params = Ok shortened.
Proof.
  intros config params device plan.
  apply (generate_all_or_nothing example_template_path example_alias
           example_loader example_environment example_add_kci_raise
           example_get_template example_render
           config params device plan None None).
  intros H. apply (f_equal (fun m : dict => m !! "lab_name")) in H.
  vm_compute in H. discriminate H.
Defined.

Lemma generate_no_callback_witness :
  let config :=
    {| priorities := {| priority := VInt 50; priority_min := VNone;
                        priority_max := VNone |};
       queue_timeout := VInt 30; name := VStr "lab-example" |} in
  let params : dict :=
    list_to_map [("base_device_type", VStr "qemu");
                 ("defconfig_full", VStr "defconfig");
                 ("name", VStr "baseline-qemu"); ("plan", VStr "baseline")] in
  let device := {| boot_method := VStr "qemu" |} in
  let plan := {| params := {[ "priority" := VInt 20 ]} |} in
  generate_example config params device plan (Some ∅) None
  = generate_example config params device plan None None
  /\ generate_example config params device plan
       (Some {[ "type" := VStr "kernelci" ]}) None
     = generate_example config params device plan None None.
Proof.
  intros config params device plan. split.
  - apply (generate_no_callback example_template_path example_alias
           example_loader example_environment example_add_kci_raise
           example_get_template example_render).
    left. reflexivity.
  - apply (generate_no_callback example_template_path example_alias
           example_loader example_environment example_add_kci_raise
           example_get_template example_render).
    right. exists {[ "type" := VStr "kernelci" ]}. split; reflexivity.
Defined.

Lemma generate_rendered_witness :
  let config :=
    {| priorities := {| priority := VInt 50; priority_min := VNone;
                        priority_max := VNone |};
       queue_timeout := VInt 30; name := VStr "lab-example" |} in
  let params : dict :=
    list_to_map [("base_device_type", VStr "qemu");
                 ("defconfig_full", VStr "defconfig");
                 ("name", VStr "baseline-qemu"); ("plan", VStr "baseline")] in
  let device := {| boot_method := VStr "qemu" |} in
  let plan := {| params := {[ "priority" := VInt 20 ]} |} in
  exists file t,
    example_template_path plan (boot_method device) = Return file
    /\ example_get_template
         (example_add_kci_raise
            (example_environment
               (example_loader (default DEFAULT_TEMPLATE_PATHS None))
               ["jinja2.ext.do"])) file = Return t
    /\ example_render t
         (generate_example config params device plan None None).1
       = Return "config/lava/boot/generic-qemu-template.jinja2".
Proof.
  intros config params device plan.
  apply (generate_rendered example_template_path example_alias
           example_loader example_environment example_add_kci_raise
           example_get_template example_render
           config params device plan None None).
  vm_compute. reflexivity.
Defined.

Lemma generate_job_file_name_witness :
  let config :=
    {| priorities := {| priority := VNone; priority_min := VInt 45;
                        priority_max := VInt 55 |};
       queue_timeout := VInt 30; name := VStr "lab-example" |} in
  let d := "cros://chromeos-5.15/arm64/chromiumos-arm64.flavour.config+bar" in
  let params : dict :=
    list_to_map [("base_device_type", VStr "qemu");
                 ("defconfig_full", VStr d); ("tree", VStr "mainline");
                 ("git_branch", VStr "for/next");
                 ("git_describe", VStr "v6.1"); ("arch", VStr "arm64");
                 ("build_environment", VStr "gcc-10");
                 ("device_type", VStr "qemu_x86_64-uefi-chromeos");
                 ("plan", VStr "boot"); ("name", VStr "long-name")] in
  let device := {| boot_method := VStr "qemu" |} in
  let plan := {| params := ∅ |} in
  exists X,
    _shorten_cros_name params = Ok (VStr X)
    /\ job_file_name
         (generate_example config params device plan None None).1
       = Ok (X +:+ ".yaml")
    /\ contains "/" X = false.
Proof.
  intros config d params device plan.
  apply (proj1 (generate_job_file_name example_template_path example_alias
           example_loader example_environment example_add_kci_raise
           example_get_template example_render
                  config params device plan None None
                  "config/lava/boot/generic-qemu-template.jinja2" d
                  ltac:(vm_compute; reflexivity) eq_refl)).
  reflexivity.
Defined.

Lemma generate_keeps_witness :
  let config :=
    {| priorities := {| priority := VInt 50; priority_min := VNone;
                        priority_max := VNone |};
       queue_timeout := VInt 30; name := VStr "lab-example" |} in
  let params : dict :=
    list_to_map [("defconfig_full", VStr "defconfig");
                 ("name", VStr "baseline-qemu"); ("plan", VStr "baseline")] in
  let device := {| boot_method := VStr "qemu" |} in
  let plan := {| params := {[ "priority" := VInt 20 ]} |} in
  is_Some
    ((generate_example config params device plan None None).1 !! "plan").
Proof.
  intros config params device plan.
  apply (generate_keeps example_template_path example_alias
           example_loader example_environment example_add_kci_raise
           example_get_template example_render
           config params device plan None None "plan").
  exists (VStr "baseline"). reflexivity.
Defined.
